(** * postmaster-go: the request-parameter encoder and the shipment calls

    A shallow embedding of [utils.go] (urlencode, mapStruct, mapStructNested,
    makeUrl) and of the shipment file (the record types, Create, Get, Void,
    Track, ListShipments, FindShipments).

    Go values are modelled the way package reflect presents them: a kind, and
    for a struct its fields with their descriptors.  A Go map is a [gmap]; a
    panic is an explicit outcome. *)

From Stdlib Require Import Ascii.
From stdpp Require Import gmap strings list fin_maps pretty.

#[local] Set Warnings "-register-all".
#[local] Open Scope Z_scope.

(** ** Outcomes: a Go call returns or panics *)

(** The panics the encoder can raise, named after the reflect call that
    raises them. *)
Inductive panic : Type :=
| NilTypeKind          (* reflect.TypeOf(nil).Kind(): nil pointer dereference *)
| InterfaceOfZeroValue (* reflect.ValueOf(p).Elem().Interface() on a nil pointer *)
| NumFieldOfNonStruct  (* reflect: NumField of non-struct type *)
| InterfaceOfUnexported (* reflect.Value.Interface: value obtained from unexported field *)
| NilDereference.      (* field access through a nil pointer *)

Inductive outcome (A : Type) : Type :=
| Ok (a : A)
| Panic (p : panic).
Arguments Ok {A} a.
Arguments Panic {A} p.

Definition obind {A B : Type} (x : outcome A) (f : A → outcome B) : outcome B :=
  match x with
  | Ok a => f a
  | Panic p => Panic p
  end.

Notation "x ←! y ; z" := (obind y (λ x, z))
  (at level 20, y at level 100, z at level 200, right associativity, only parsing).

Definition panics {A : Type} (x : outcome A) : Prop :=
  match x with
  | Ok _ => False
  | Panic _ => True
  end.

(** ** Values under reflection *)

Module reflect.
(** The kinds of reflect.Kind that the model distinguishes. *)
Inductive Kind : Set :=
| Bool | Int | Int64 | Float32 | Float64 | Interface | Ptr | Slice | String | Struct.

#[global] Instance Kind_eq_dec : EqDecision Kind.
Proof. solve_decision. Defined.
End reflect.

(** A struct tag, as the key/value pairs it spells:
    [`dontMap:"true" json:"label_url"`] is
    [[("dontMap", "true"); ("json", "label_url")]]. *)
Definition StructTag : Type := list (string * string).

(** reflect.StructField: the declared name, the package path (empty exactly
    for an exported field) and the tag. *)
Record StructField : Type := mkField {
  Name : string;
  PkgPath : string;
  Tag : StructTag
}.

(** The values are those of the predeclared types and of the types built
    from them: [VInt n] is an int, [VString s] a string, and so on.  (A
    named type that has a Format, Error or String method prints through that
    method; the types declared in the shipment file have none, and values
    of such types are not among these.)  A float32 or float64 is its IEEE-754 bit pattern; [0] is
    the type's zero value, +0. *)
Inductive value : Type :=
| VNil                                        (* the nil interface value *)
| VBool (b : bool)
| VInt (n : Z)
| VInt64 (n : Z)
| VFloat32 (bits : Z)
| VFloat64 (bits : Z)
| VString (s : string)
| VPtr (target : option value)                (* None is the nil pointer *)
| VSlice (elems : list value)
| VStruct (fields : list (StructField * value)).

(** v.Kind() of a field value.  (A nil interface at top level has no type at
    all; [mapStructNested] handles that case before asking for a kind.) *)
Definition Kind (v : value) : reflect.Kind :=
  match v with
  | VNil => reflect.Interface
  | VBool _ => reflect.Bool
  | VInt _ => reflect.Int
  | VInt64 _ => reflect.Int64
  | VFloat32 _ => reflect.Float32
  | VFloat64 _ => reflect.Float64
  | VString _ => reflect.String
  | VPtr _ => reflect.Ptr
  | VSlice _ => reflect.Slice
  | VStruct _ => reflect.Struct
  end.

(** Induction over values that reaches through pointers, slices and fields. *)
Section value_rect_deep.
Variable P : value → Prop.
Hypothesis Hnil : P VNil.
Hypothesis Hbool : ∀ b, P (VBool b).
Hypothesis Hint : ∀ n, P (VInt n).
Hypothesis Hint64 : ∀ n, P (VInt64 n).
Hypothesis Hf32 : ∀ b, P (VFloat32 b).
Hypothesis Hf64 : ∀ b, P (VFloat64 b).
Hypothesis Hstring : ∀ s, P (VString s).
Hypothesis Hnilptr : P (VPtr None).
Hypothesis Hptr : ∀ v, P v → P (VPtr (Some v)).
Hypothesis Hslice : ∀ l, Forall P l → P (VSlice l).
Hypothesis Hstruct : ∀ fs, Forall (λ tv, P tv.2) fs → P (VStruct fs).

Fixpoint value_ind_deep (v : value) : P v :=
  match v with
  | VNil => Hnil
  | VBool b => Hbool b
  | VInt n => Hint n
  | VInt64 n => Hint64 n
  | VFloat32 b => Hf32 b
  | VFloat64 b => Hf64 b
  | VString s => Hstring s
  | VPtr None => Hnilptr
  | VPtr (Some w) => Hptr w (value_ind_deep w)
  | VSlice l =>
      Hslice l ((fix go (l : list value) : Forall P l :=
                   match l with
                   | [] => Forall_nil_2 P
                   | x :: l' => Forall_cons_2 P x l' (value_ind_deep x) (go l')
                   end) l)
  | VStruct fs =>
      Hstruct fs ((fix go (fs : list (StructField * value))
                     : Forall (λ tv, P tv.2) fs :=
                     match fs with
                     | [] => Forall_nil_2 _
                     | tv :: fs' =>
                         Forall_cons_2 (λ tv, P tv.2) tv fs'
                           (value_ind_deep tv.2) (go fs')
                     end) fs)
  end.
End value_rect_deep.

(** ** The library calls the encoder makes *)

(** t.Tag.Get(key): the value of the first pair with that key, the empty
    string when there is none. *)
Fixpoint Tag_Get (tag : StructTag) (key : string) : string :=
  match tag with
  | [] => ""
  | (k, v) :: tag' => if decide (k = key) then v else Tag_Get tag' key
  end.

(** strings.ToLower.  On a string of ASCII bytes the letters A to Z move to
    a to z and every other byte stays.  On a string with a byte of 128 or
    more the result is strings.Map(unicode.ToLower, s), which lowers every
    upper-case letter of Unicode; the case tables are library data, and that
    result is the parameter [unicode_ToLower]. *)
Class Unicode : Type := unicode_ToLower : string → string.

Fixpoint isASCII (s : string) : bool :=
  match s with
  | EmptyString => true
  | String c s' => bool_decide (Ascii.N_of_ascii c < 128)%N && isASCII s'
  end.

Definition lower_ascii (c : Ascii.ascii) : Ascii.ascii :=
  let n := Ascii.N_of_ascii c in
  if decide (65 ≤ n ≤ 90)%N then Ascii.ascii_of_N (n + 32) else c.

Fixpoint lower_bytes (s : string) : string :=
  match s with
  | EmptyString => EmptyString
  | String c s' => String (lower_ascii c) (lower_bytes s')
  end.

Definition ToLower {U : Unicode} (s : string) : string :=
  if isASCII s then lower_bytes s else unicode_ToLower s.

(** strconv.Itoa, which is also what the verb %v and %d print for an
    integer: decimal digits with a leading minus sign. *)
Definition Itoa (n : Z) : string := pretty n.

(** fmt.Sprintf("%v", x) on a value of a predeclared type, for the kinds
    whose rendering this development pins down (strings, integers, booleans,
    nil); for the others (floats, pointers, slices, structs inside them) the
    rendering is the parameter [fmt_other]. *)
Class Fmt : Type := fmt_other : value → string.

Definition Sprint (F : Fmt) (v : value) : string :=
  match v with
  | VString s => s
  | VInt n | VInt64 n => Itoa n
  | VBool b => if b then "true" else "false"
  | VNil => "<nil>"
  | _ => fmt_other v
  end.

(** What the encoder relies on about the rendering of a float32: the zero
    value, and only it, prints as "0", and nothing prints as the empty
    string. *)
Class FmtFloat32 (F : Fmt) : Prop := {
  fmt_float32_zero : ∀ bits, fmt_other (VFloat32 bits) = "0" ↔ bits = 0;
  fmt_float32_nonempty : ∀ bits, fmt_other (VFloat32 bits) ≠ ""
}.

(** v.Interface() on the value of field t: panics for an unexported field. *)
Definition Interface (t : StructField) (v : value) : outcome value :=
  if decide (PkgPath t = "") then Ok v else Panic InterfaceOfUnexported.

(** ** utils.go: mapStruct and mapStructNested *)

(** Lines 45-53: the name under which a field is emitted. *)
Definition fieldName {U : Unicode} (t : StructField) (baseName : string) : string :=
  let name :=
    let json := Tag_Get (Tag t) "json" in
    if decide (json ≠ "") then json else ToLower (Name t) in
  if decide (baseName ≠ "") then baseName +:+ "[" +:+ name +:+ "]" else name.

(** Line 64: [(k == Float32 || k == Int) && value == "0" || value == ""]. *)
Definition omitted (k : reflect.Kind) (value : string) : bool :=
  (bool_decide (k = reflect.Float32) || bool_decide (k = reflect.Int))
    && bool_decide (value = "0")
  || bool_decide (value = "").

Section encoder.
Context {F : Fmt} {U : Unicode}.

Section fields.
(** The recursive call of line 56. *)
Variable recurse : value → string → outcome (gmap string string).
Variable baseName : string.

(** One turn of the loop of lines 37-69, on field descriptor [t] with
    value [v], from the map built so far. *)
Definition mapField (result : gmap string string) (tv : StructField * value)
  : outcome (gmap string string) :=
  let '(t, v) := tv in
  if decide (Tag_Get (Tag t) "dontMap" = "true") then Ok result
  else
    let name := fieldName t baseName in
    if decide (Kind v = reflect.Struct) then
      (* v.Interface() hands back v itself when it returns *)
      _ ←! Interface t v;
      m ←! recurse v name;
      (* for mk, mv := range m { result[mk] = mv }: every key of m is
         written once, so the order of the range does not matter *)
      Ok (m ∪ result)
    else
      x ←! Interface t v;
      let value := Sprint F x in
      if omitted (Kind v) value then Ok result
      else Ok (<[name := value]> result).

Fixpoint mapFields (fields : list (StructField * value))
    (result : gmap string string) : outcome (gmap string string) :=
  match fields with
  | [] => Ok result
  | tv :: fields' => r ←! mapField result tv; mapFields fields' r
  end.
End fields.

Fixpoint mapStructNested (s : value) (baseName : string) {struct s}
  : outcome (gmap string string) :=
  match s with
  | VNil => Panic NilTypeKind
  | VPtr None => Panic InterfaceOfZeroValue
  | VPtr (Some s') => mapStructNested s' baseName
  | VStruct fields => mapFields mapStructNested baseName fields ∅
  | _ => Panic NumFieldOfNonStruct
  end.

Definition mapStruct (s : value) : outcome (gmap string string) :=
  mapStructNested s "".
End encoder.

(** ** The record types of the shipment file *)

(** A Go value boxed into interface{}, as reflect then sees it. *)
Class ToValue (A : Type) : Type := to_value : A → value.

Definition float32 : Type := Z.

(** Go exports an identifier that starts with an upper-case letter; the
    names declared in the shipment file start with an ASCII letter. *)
Definition exported (name : string) : bool :=
  match name with
  | String c _ => bool_decide (65 ≤ Ascii.N_of_ascii c ≤ 90)%N
  | EmptyString => false
  end.

(** The descriptor of a field declared in package postmaster. *)
Definition field (name : string) (tag : StructTag) : StructField :=
  mkField name (if exported name then "" else "postmaster") tag.

Definition dontMap : string * string := ("dontMap", "true").
Definition json (name : string) : string * string := ("json", name).

(** Postmaster is declared in another file; [makeUrl] shows its BaseUrl. *)
Record Postmaster : Type := { BaseUrl : string }.

#[global] Instance Postmaster_value : ToValue Postmaster := λ p,
  VStruct [(field "BaseUrl" [], VString (BaseUrl p))].

(** Address is declared in another file.  A value of it is kept as the field
    list reflect would show, whatever the declaration is. *)
Definition Address : Type := list (StructField * value).

#[global] Instance Address_value : ToValue Address := VStruct.

Module CustomContent.
Record t : Type := mk {
  Description : string;
  Quantity : string;
  Value : string;
  Weight : float32;
  WeightUnits : string;
  HSTariffNumber : string;
  CountryOfOrigin : string
}.
End CustomContent.

#[global] Instance CustomContent_value : ToValue CustomContent.t := λ c,
  VStruct
    [ (field "Description" [], VString (CustomContent.Description c));
      (field "Quantity" [], VString (CustomContent.Quantity c));
      (field "Value" [], VString (CustomContent.Value c));
      (field "Weight" [], VFloat32 (CustomContent.Weight c));
      (field "WeightUnits" [json "weight_units"], VString (CustomContent.WeightUnits c));
      (field "HSTariffNumber" [json "hs_tariff_number"],
         VString (CustomContent.HSTariffNumber c));
      (field "CountryOfOrigin" [json "country_of_origin"],
         VString (CustomContent.CountryOfOrigin c)) ].

Module Custom.
Record t : Type := mk {
  Type_ : string;        (* the field Type *)
  Comments : string;
  InvoiceNumber : string;
  Contents : CustomContent.t
}.
End Custom.

#[global] Instance Custom_value : ToValue Custom.t := λ c,
  VStruct
    [ (field "Type" [], VString (Custom.Type_ c));
      (field "Comments" [], VString (Custom.Comments c));
      (field "InvoiceNumber" [json "invoice_number"], VString (Custom.InvoiceNumber c));
      (field "Contents" [], to_value (Custom.Contents c)) ].

Module Package.
Record t : Type := mk {
  Id : Z;
  Name : string;
  Width : float32;
  Height : float32;
  Length : float32;
  Weight : float32;
  Customs : Custom.t;
  DimensionUnits : string;
  WeightUnits : string;
  Type_ : string;        (* the field Type *)
  LabelUrl : string
}.
End Package.

#[global] Instance Package_value : ToValue Package.t := λ p,
  VStruct
    [ (field "Id" [dontMap], VInt (Package.Id p));
      (field "Name" [], VString (Package.Name p));
      (field "Width" [], VFloat32 (Package.Width p));
      (field "Height" [], VFloat32 (Package.Height p));
      (field "Length" [], VFloat32 (Package.Length p));
      (field "Weight" [], VFloat32 (Package.Weight p));
      (field "Customs" [], to_value (Package.Customs p));
      (field "DimensionUnits" [dontMap; json "dimension_units"],
         VString (Package.DimensionUnits p));
      (field "WeightUnits" [dontMap; json "weight_units"],
         VString (Package.WeightUnits p));
      (field "Type" [dontMap], VString (Package.Type_ p));
      (field "LabelUrl" [dontMap; json "label_url"], VString (Package.LabelUrl p)) ].

Module Shipment.
Record t : Type := mk {
  p : option Postmaster;   (* *Postmaster; None is nil *)
  Id : Z;
  To : Address;
  From : Address;
  Package : Package.t;
  Carrier : string;
  Service : string;
  Status : string;
  Tracking : list string;
  PackageCount : Z;
  CreatedAt : Z;
  Cost : Z;
  Prepaid : bool
}.

Definition set_p (c : option Postmaster) (s : t) : t :=
  mk c (Id s) (To s) (From s) (Package s) (Carrier s) (Service s) (Status s)
     (Tracking s) (PackageCount s) (CreatedAt s) (Cost s) (Prepaid s).

Definition set_Status (st : string) (s : t) : t :=
  mk (p s) (Id s) (To s) (From s) (Package s) (Carrier s) (Service s) st
     (Tracking s) (PackageCount s) (CreatedAt s) (Cost s) (Prepaid s).
End Shipment.

#[global] Instance Shipment_value : ToValue Shipment.t := λ s,
  VStruct
    [ (field "p" [dontMap], VPtr (to_value <$> Shipment.p s));
      (field "Id" [dontMap], VInt (Shipment.Id s));
      (field "To" [], to_value (Shipment.To s));
      (field "From" [], to_value (Shipment.From s));
      (field "Package" [], to_value (Shipment.Package s));
      (field "Carrier" [], VString (Shipment.Carrier s));
      (field "Service" [], VString (Shipment.Service s));
      (field "Status" [dontMap], VString (Shipment.Status s));
      (field "Tracking" [dontMap], VSlice (VString <$> Shipment.Tracking s));
      (field "PackageCount" [json "package_count"], VInt (Shipment.PackageCount s));
      (field "CreatedAt" [json "created_at"], VInt (Shipment.CreatedAt s));
      (field "Cost" [dontMap], VInt (Shipment.Cost s));
      (field "Prepaid" [dontMap], VBool (Shipment.Prepaid s)) ].

(** A pointer to a record, as Create passes its receiver to mapStruct. *)
Definition ptr_to {A : Type} `{ToValue A} (x : A) : value := VPtr (Some (to_value x)).

Module ShipmentList.
Record t : Type := mk {
  Results : list Shipment.t;
  Cursor : string;
  PreviousCursor : string
}.
End ShipmentList.

(** ** A rendering table to run the encoder on concrete records *)

(** [fmt_table] prints the float32 values 0, -0, 1, 1.5 and 2.5, the nil
    pointer and a pointer to the one-field struct {x} as fmt does; every other
    value of the kinds left to [fmt_other] gets a placeholder.  It is used on
    the listed values only. *)
Definition fmt_table : Fmt := λ v,
  match v with
  | VFloat32 bits =>
      if decide (bits = 0) then "0"
      else if decide (bits = 2147483648) then "-0"
      else if decide (bits = 1065353216) then "1"
      else if decide (bits = 1069547520) then "1.5"
      else if decide (bits = 1075838976) then "2.5"
      else "?"
  | VFloat64 bits => if decide (bits = 0) then "0" else "?"
  | VPtr None => "<nil>"
  | VPtr (Some (VStruct [(_, VString s)])) => "&{" +:+ s +:+ "}"
  | _ => "?"
  end.

#[global] Instance fmt_table_float32 : FmtFloat32 fmt_table.
Proof.
  split; intros bits; unfold fmt_other, fmt_table.
  - repeat case_decide; subst; split; intros; congruence.
  - repeat case_decide; discriminate.
Qed.

(** [letters_table] lowers the one name with a letter outside ASCII that the
    examples use, as unicode.ToLower does.  It is used on that name only. *)
Definition letters_table : Unicode := λ s,
  if decide (s = "CAFÉ") then "café" else s.

(** ** utils.go: urlencode *)

(** net/url.QueryEscape: letters, digits and [-_.~] stay, a space becomes
    [+], every other byte becomes [%XX] in upper-case hexadecimal. *)
Definition unreserved (c : Ascii.ascii) : bool :=
  let n := Ascii.N_of_ascii c in
  (bool_decide (48 ≤ n ≤ 57) || bool_decide (65 ≤ n ≤ 90)
   || bool_decide (97 ≤ n ≤ 122) || bool_decide (n = 45) || bool_decide (n = 95)
   || bool_decide (n = 46) || bool_decide (n = 126))%N.

Definition upperhex (n : N) : Ascii.ascii :=
  Ascii.ascii_of_N (if decide (n < 10)%N then 48 + n else 55 + n)%N.

Fixpoint QueryEscape (s : string) : string :=
  match s with
  | EmptyString => EmptyString
  | String c s' =>
      let n := Ascii.N_of_ascii c in
      if unreserved c then String c (QueryEscape s')
      else if decide (n = 32)%N then String "+"%char (QueryEscape s')
      else String "%"%char (String (upperhex (n / 16)) (String (upperhex (n mod 16))
                         (QueryEscape s')))
  end.

(** strings.Join. *)
Fixpoint Join (elems : list string) (sep : string) : string :=
  match elems with
  | [] => ""
  | [e] => e
  | e :: elems' => e +:+ sep +:+ Join elems' sep
  end.

(** [for k, v := range params] visits every entry once, in an order Go leaves
    open: [entries] is a possible order of the range over [params]. *)
Definition ranges_over (params : gmap string string)
    (entries : list (string * string)) : Prop :=
  entries ≡ₚ map_to_list params.

(** Lines 13-18, on the entries in the order the range visits them. *)
Definition urlencode_arr (entries : list (string * string)) : list string :=
  fold_left
    (λ arr kv, if decide (kv.2 ≠ "") then arr ++ [kv.1 +:+ "=" +:+ QueryEscape kv.2]
               else arr)
    entries [].

Definition urlencode_in (entries : list (string * string)) : string :=
  "&" +:+ Join (urlencode_arr entries) "&" +:+ "&".

(** urlencode(params) may return [out]. *)
Definition urlencode (params : gmap string string) (out : string) : Prop :=
  ∃ entries, ranges_over params entries ∧ out = urlencode_in entries.

(** ** utils.go: makeUrl *)

Definition makeUrl (p : Postmaster) (version endpoint : string) : string :=
  let url := if decide (BaseUrl p ≠ "") then BaseUrl p else "http://api.postmaster.io" in
  url +:+ "/" +:+ version +:+ "/" +:+ endpoint.

(** ** The shipment calls *)

(** A Go error value: nil, or an error with its message. *)
Definition error : Type := option string.

Inductive verb : Set := POST | GET | DELETE.

(** What a call of post, get or del is given, besides the place to decode
    the response into. *)
Record Request : Type := mkRequest {
  rq_verb : verb;
  rq_client : option Postmaster;
  rq_version : string;
  rq_endpoint : string;
  rq_params : option (gmap string string)   (* None is a nil map *)
}.

(** The places a response is decoded into. *)
Inductive out : Set := IntoShipment | IntoMessage | IntoTracking | IntoList.

Section lifecycle.
Context {F : Fmt} {U : Unicode}.
(** TrackingResponse is declared in another file. *)
Context {TrackingResponse : Type} (TrackingResponse_zero : TrackingResponse).

Definition out_type (o : out) : Type :=
  match o with
  | IntoShipment => Shipment.t
  | IntoMessage => gmap string string          (* a nil map reads as the empty one *)
  | IntoTracking => TrackingResponse
  | IntoList => option ShipmentList.t          (* **ShipmentList: may be reset to nil *)
  end.

(** Modelled from the spec: post, get and del, the transport helpers, are
    declared in another file.  A call is an event [Call]: the transport gets
    the request and the current value behind the out pointer, and the
    program continues with the value it left there and the error it
    returned.  A program that attempts no request contains no [Call]. *)
Inductive prog (A : Type) : Type :=
| Ret (a : A)
| Crash (p : panic)
| Call (rq : Request) (o : out) (cur : out_type o) (k : out_type o * error → prog A).
Arguments Ret {A} a.
Arguments Crash {A} p.
Arguments Call {A} rq o cur k.

(** The transport, as a function from what it is given to what it leaves. *)
Definition transport : Type := ∀ o : out, Request → out_type o → out_type o * error.

(** Running a program against a transport: the requests attempted, in
    order, and the result. *)
Fixpoint run {A : Type} (h : transport) (m : prog A) : list Request * outcome A :=
  match m with
  | Ret a => ([], Ok a)
  | Crash p => ([], Panic p)
  | Call rq o cur k =>
      let '(log, r) := run h (k (h o rq cur)) in (rq :: log, r)
  end.

(** Methods on *Shipment return, where they may have written to the
    receiver, the receiver's new contents. *)

Definition Create (s : Shipment.t) : prog (option Shipment.t * error) :=
  if decide (Shipment.Id s ≠ -1) then
    Ret (None, Some "You can't create an existing shipment.")
  else
    match mapStruct (ptr_to s) with
    | Panic p => Crash p
    | Ok params =>
        Call (mkRequest POST (Shipment.p s) "v1" "shipments" (Some params))
          IntoShipment s (λ '(s', err), Ret (Some s', err))
    end.

Definition Get (s : Shipment.t) : prog (option Shipment.t * error) :=
  if decide (Shipment.Id s = -1) then
    Ret (None, Some "You must provide a shipment ID.")
  else
    let endpoint := "shipments/" +:+ Itoa (Shipment.Id s) in
    Call (mkRequest GET (Shipment.p s) "v1" endpoint None)
      IntoShipment s (λ '(s', err), Ret (Some s', err)).

(** Void returns the receiver's contents after the call, then its two
    results. *)
Definition Void (s : Shipment.t) : prog (Shipment.t * (bool * error)) :=
  if decide (Shipment.Id s = -1) then
    Ret (s, (false, Some "You must provide a shipment ID."))
  else
    let endpoint := "shipments/" +:+ Itoa (Shipment.Id s) +:+ "/void" in
    Call (mkRequest DELETE (Shipment.p s) "v1" endpoint None)
      IntoMessage ∅
      (λ '(res, err),
         let message := default "" (res !! "message") in
         let s' := if decide (message = "OK") then Shipment.set_Status "Voided" s
                   else s in
         Ret (s', (bool_decide (message = "OK"), err))).

Definition Track (s : Shipment.t) : prog (option TrackingResponse * error) :=
  if decide (Shipment.Id s = -1) then
    Ret (None, Some "You must provide a shipment ID.")
  else
    let endpoint := "shipments/" +:+ Itoa (Shipment.Id s) +:+ "/track" in
    Call (mkRequest GET (Shipment.p s) "v1" endpoint None)
      IntoTracking TrackingResponse_zero (λ '(res, err), Ret (Some res, err)).

(** Lines 143-147 and 166-170: the back-reference loop and the return. *)
Definition attach (p : option Postmaster) (r : option ShipmentList.t * error)
  : prog (option ShipmentList.t * error) :=
  match r.1 with
  | None => Crash NilDereference
  | Some res =>
      Ret (Some (ShipmentList.mk (Shipment.set_p p <$> ShipmentList.Results res)
                   (ShipmentList.Cursor res) (ShipmentList.PreviousCursor res)),
           r.2)
  end.

Definition ListShipments_params (limit : Z) (cursor status : string)
  : gmap string string :=
  let params : gmap string string := ∅ in
  let params := if decide (limit > 0) then <["limit" := Itoa limit]> params
                else params in
  let params := if decide (cursor ≠ "") then <["cursor" := cursor]> params
                else params in
  let params := if decide (status ≠ "") then <["status" := status]> params
                else params in
  params.

Definition ListShipments (p : option Postmaster) (limit : Z) (cursor status : string)
  : prog (option ShipmentList.t * error) :=
  let params := ListShipments_params limit cursor status in
  Call (mkRequest GET p "v1" "shipments" (Some params))
    IntoList (Some (ShipmentList.mk [] "" "")) (attach p).

Definition FindShipments (p : option Postmaster) (q : string) (limit : Z)
    (cursor : string) : prog (option ShipmentList.t * error) :=
  let params : gmap string string := ∅ in
  if decide (q = "") then Ret (None, Some "You must provide search query.")
  else
    let params := <["q" := q]> params in
    let params := if decide (limit > 0) then <["limit" := Itoa limit]> params
                  else params in
    let params := if decide (cursor ≠ "") then <["cursor" := cursor]> params
                  else params in
    Call (mkRequest GET p "v1" "shipments/search" (Some params))
      IntoList (Some (ShipmentList.mk [] "" "")) (attach p).
End lifecycle.

Arguments Ret {TrackingResponse A} a.
Arguments Crash {TrackingResponse A} p.
Arguments Call {TrackingResponse A} rq o cur k.

(** ** The shipment file: Shipment() *)

(** Shipment(): new(Shipment), then p and Id are set.  [zero] is the zero
    value of Address, which is declared in another file. *)
Definition Postmaster_Shipment (zero : Address) (p : option Postmaster) : Shipment.t :=
  Shipment.mk p (-1) zero zero
    (Package.mk 0 "" 0 0 0 0
       (Custom.mk "" "" "" (CustomContent.mk "" "" "" 0 "" "" "")) "" "" "" "")
    "" "" "" [] 0 0 0 false.

(** A record is blank when each of its fields is tagged dontMap:"true", or
    is exported and holds an empty string, a zero int, a zero float32 or a
    blank record. *)
Fixpoint blank (v : value) : bool :=
  match v with
  | VString s => bool_decide (s = "")
  | VInt n => bool_decide (n = 0)
  | VFloat32 bits => bool_decide (bits = 0)
  | VStruct fields =>
      forallb (λ tv, bool_decide (Tag_Get (Tag tv.1) "dontMap" = "true")
                     || bool_decide (PkgPath tv.1 = "") && blank tv.2) fields
  | _ => false
  end.

(** ** Sample values *)

Definition oslo : Address :=
  [ (field "City" [], VString "Oslo");
    (field "ZipCode" [json "zip_code"], VString "0150") ].

(* Weight 1.5, Width 2.5 *)
Definition gift_contents : CustomContent.t :=
  CustomContent.mk "Gift" "2" "" 1069547520 "" "" "".
Definition gift_customs : Custom.t := Custom.mk "" "" "" gift_contents.
Definition gift_package : Package.t :=
  Package.mk 7 "box" 1075838976 0 0 0 gift_customs "in" "lb" "parcel" "http://label".

(** A shipment not yet created, and one that carries an identifier. *)
Definition new_shipment : Shipment.t :=
  Shipment.mk None (-1) oslo oslo gift_package "ups" "" "Processing" ["1Z"] 3 0 9 true.
Definition stored_shipment : Shipment.t :=
  Shipment.mk None 42 oslo oslo gift_package "ups" "" "Processing" ["1Z"] 3 0 9 true.

Definition new_shipment_params : gmap string string :=
  {[ "to[city]" := "Oslo"; "to[zip_code]" := "0150";
     "from[city]" := "Oslo"; "from[zip_code]" := "0150";
     "package[name]" := "box"; "package[width]" := "2.5";
     "package[customs][contents][description]" := "Gift";
     "package[customs][contents][quantity]" := "2";
     "package[customs][contents][weight]" := "1.5";
     "carrier" := "ups"; "package_count" := "3" ]}.

(** A record that holds another by value, and one that holds it by pointer. *)
Definition inner_record : value := VStruct [(field "A" [], VString "x")].
Definition holds_by_value : value := VStruct [(field "Inner" [], inner_record)].
Definition holds_by_pointer : value :=
  VStruct [(field "Inner" [], VPtr (Some inner_record))].

(** A transport that answers every request with the message OK and no error,
    and leaves the other places as they are. *)
Definition accepting : transport (TrackingResponse := unit) := λ o,
  match o with
  | IntoMessage => λ _ _, ({[ "message" := "OK" ]}, None)
  | _ => λ _ cur, (cur, None)
  end.

Definition sample_params : gmap string string :=
  {[ "a" := "x y"; "b" := ""; "c" := "1" ]}.

Definition another_stored_shipment : Shipment.t :=
  Shipment.mk None 43 oslo oslo gift_package "ups" "" "Processing" [] 1 0 0 false.

(** A transport that leaves the message OK and returns an error with
    it. *)
Definition accepting_with_error : transport (TrackingResponse := unit) := λ o,
  match o with
  | IntoMessage => λ _ _, ({[ "message" := "OK" ]}, Some "unexpected end of input")
  | _ => λ _ cur, (cur, Some "unexpected end of input")
  end.

(** A transport that fails: it leaves every place as it is and returns an
    error. *)
Definition refusing : transport (TrackingResponse := unit) :=
  λ _ _ cur, (cur, Some "connection refused").

(** ** Auxiliary notions for the statements *)

(** [starts_with p s]: [p] is a prefix of [s]. *)
Fixpoint starts_with (p s : string) : bool :=
  match p, s with
  | EmptyString, _ => true
  | String a p', String b s' => bool_decide (a = b) && starts_with p' s'
  | String _ _, EmptyString => false
  end.

Definition omap_outcome {A B : Type} (f : A → B) (x : outcome A) : outcome B :=
  match x with
  | Ok a => Ok (f a)
  | Panic p => Panic p
  end.

(** Lines 33-35: the loop that follows pointers. *)
Fixpoint deref (s : value) : outcome value :=
  match s with
  | VNil => Panic NilTypeKind
  | VPtr None => Panic InterfaceOfZeroValue
  | VPtr (Some s') => deref s'
  | _ => Ok s
  end.

(** [n] levels of pointer around [v]. *)
Definition pointer_to (n : nat) (v : value) : value :=
  Nat.iter n (λ w, VPtr (Some w)) v.

(** The field [tv] cannot write key [k] when it is encoded under [baseName]:
    it is passed over, or it is a scalar emitted under another name, or it is
    a nested record, whose keys all start with its own name and a bracket,
    and [k] does not. *)
Definition misses {U : Unicode} (baseName k : string) (tv : StructField * value) : bool :=
  bool_decide (Tag_Get (Tag tv.1) "dontMap" = "true")
  || (if bool_decide (Kind tv.2 = reflect.Struct)
      then negb (bool_decide (fieldName tv.1 baseName = ""))
           && negb (starts_with (fieldName tv.1 baseName +:+ "[") k)
      else negb (bool_decide (fieldName tv.1 baseName = k))).

(** A field is included when it is not tagged dontMap:"true", and readable
    when it is exported. *)
Definition included (t : StructField) : Prop := Tag_Get (Tag t) "dontMap" ≠ "true".
Definition readable (t : StructField) : Prop := PkgPath t = "".

(** The encoder returns on [v], under every prefix. *)
Definition encodes {F : Fmt} {U : Unicode} (v : value) : Prop :=
  ∀ baseName, ∃ m, mapStructNested v baseName = Ok m.

(** The field does not make the loop panic. *)
Definition field_ok {F : Fmt} {U : Unicode} (tv : StructField * value) : Prop :=
  Tag_Get (Tag tv.1) "dontMap" = "true"
  ∨ (readable tv.1 ∧ (Kind tv.2 = reflect.Struct → encodes tv.2)).

(** The keys that would name the fields of Shipment and of its Package that
    are tagged dontMap:"true". *)
Definition response_only_keys : list string :=
  [ "p"; "id"; "status"; "tracking"; "cost"; "prepaid";
    "package[id]"; "package[dimension_units]"; "package[weight_units]";
    "package[type]"; "package[label_url]" ].

(** [bracket p n] is the key [p[n]]. *)
Definition bracket (p n : string) : string := p +:+ "[" +:+ n +:+ "]".

(** The field [tv] may have written key [k]: it is included, and it is a
    scalar emitted as [k] or a nested record whose encoding has [k]. *)
Definition writes {F : Fmt} {U : Unicode} (baseName k : string) (tv : StructField * value) : Prop :=
  included tv.1
  ∧ ((Kind tv.2 ≠ reflect.Struct ∧ k = fieldName tv.1 baseName)
     ∨ (Kind tv.2 = reflect.Struct
        ∧ ∃ mv, mapStructNested tv.2 (fieldName tv.1 baseName) = Ok mv
                ∧ is_Some (mv !! k))).

(** The keys under which the fields of a Shipment and of the records nested
    in its Package are emitted. *)
Definition shipment_keys : list string :=
  [ "carrier"; "service"; "package_count"; "created_at";
    "package[name]"; "package[width]"; "package[height]"; "package[length]";
    "package[weight]";
    "package[customs][type]"; "package[customs][comments]";
    "package[customs][invoice_number]";
    "package[customs][contents][description]";
    "package[customs][contents][quantity]";
    "package[customs][contents][value]";
    "package[customs][contents][weight]";
    "package[customs][contents][weight_units]";
    "package[customs][contents][hs_tariff_number]";
    "package[customs][contents][country_of_origin]" ].

(** The endpoints of the requests a program attempts against [h]. *)
Definition endpoints {TrackingResponse A : Type}
    (h : transport (TrackingResponse := TrackingResponse)) (m : prog A) : list string :=
  rq_endpoint <$> (run h m).1.

(** * Properties *)

(** ** Strings *)

Lemma append_cons (x : ascii) (a b : string) : String x a +:+ b = String x (a +:+ b).
Proof. done. Qed.

Lemma append_nil_l (a : string) : "" +:+ a = a.
Proof. done. Qed.

Lemma append_assoc (a b c : string) : (a +:+ b) +:+ c = a +:+ (b +:+ c).
Proof. induction a as [|x a IH]; [done |]. rewrite !append_cons. by f_equal. Qed.

Lemma append_nil_r (a : string) : a +:+ "" = a.
Proof. induction a as [|x a IH]; [done |]. rewrite append_cons. by f_equal. Qed.

Lemma append_eq_nil (a b : string) : a +:+ b = "" → a = "" ∧ b = "".
Proof. destruct a; [done |]. rewrite append_cons. discriminate. Qed.

Lemma starts_with_append (p r : string) : starts_with p (p +:+ r) = true.
Proof.
  induction p as [|a p IH]; [done |].
  rewrite append_cons. simpl. rewrite IH, bool_decide_eq_true_2; done.
Qed.

Lemma starts_with_append_l (p q s : string) :
  starts_with (p +:+ q) s = true → starts_with p s = true.
Proof.
  revert s. induction p as [|a p IH]; intros s; [done |].
  rewrite append_cons. simpl. destruct s as [|b s]; [done |].
  intros [-> ?]%andb_prop. rewrite (IH s); [by rewrite andb_true_r | done].
Qed.

Lemma pretty_N_go_nonempty (x : N) (s : string) : s ≠ "" → pretty_N_go x s ≠ "".
Proof.
  revert s. induction (N.lt_wf_0 x) as [x _ IH]; intros s Hs.
  destruct (decide (x = 0%N)) as [->|Hx]; [by rewrite pretty_N_go_0 |].
  rewrite pretty_N_go_step by lia.
  apply IH; [apply N.div_lt; lia | discriminate].
Qed.

Lemma pretty_positive_nonempty (x : positive) : pretty x ≠ "".
Proof.
  unfold pretty, pretty_positive, pretty, pretty_N.
  case_decide; [discriminate |].
  rewrite pretty_N_go_step by lia.
  apply pretty_N_go_nonempty. discriminate.
Qed.

Lemma Itoa_nonempty (n : Z) : Itoa n ≠ "".
Proof.
  destruct n as [|x|x]; unfold Itoa, pretty, pretty_Z; [discriminate | |discriminate].
  apply pretty_positive_nonempty.
Qed.

Lemma Itoa_zero (n : Z) : Itoa n = "0" ↔ n = 0.
Proof.
  split; [|by intros ->].
  intros H. by apply (inj (pretty : Z → string)).
Qed.

(** ** The loop over the fields *)

Section fields_facts.
Context {F : Fmt} {U : Unicode}.
Variable recurse : value → string → outcome (gmap string string).
Variable baseName : string.

Implicit Types (fs pre post : list (StructField * value)).
Implicit Types (r m : gmap string string).

Lemma mapFields_cons tv fs r :
  mapFields recurse baseName (tv :: fs) r
  = obind (mapField recurse baseName r tv) (mapFields recurse baseName fs).
Proof. done. Qed.

Lemma mapFields_app pre post r :
  mapFields recurse baseName (pre ++ post) r
  = obind (mapFields recurse baseName pre r) (mapFields recurse baseName post).
Proof.
  revert r. induction pre as [|tv pre IH]; intros r; simpl; [done |].
  destruct (mapField recurse baseName r tv); simpl; [apply IH | done].
Qed.

(** A turn of the loop adds to the map it is given; what it adds does not
    depend on that map. *)
Lemma mapField_union r tv :
  mapField recurse baseName r tv
  = omap_outcome (λ added, added ∪ r) (mapField recurse baseName ∅ tv).
Proof.
  destruct tv as [t v]. unfold mapField.
  case_decide; simpl; [by rewrite (left_id_L ∅ (∪)) |].
  case_decide; simpl.
  - destruct (Interface t v); simpl; [|done].
    destruct (recurse v _); simpl; [|done].
    by rewrite (right_id_L ∅ (∪)).
  - destruct (Interface t v); simpl; [|done].
    destruct (omitted _ _); simpl; [by rewrite (left_id_L ∅ (∪)) |].
    by rewrite insert_union_singleton_l, insert_empty.
Qed.

Lemma mapFields_union fs r :
  mapFields recurse baseName fs r
  = omap_outcome (λ added, added ∪ r) (mapFields recurse baseName fs ∅).
Proof.
  revert r. induction fs as [|tv fs IH]; intros r; simpl.
  { by rewrite (left_id_L ∅ (∪)). }
  rewrite (mapField_union r tv).
  destruct (mapField recurse baseName ∅ tv) as [added|]; simpl; [|done].
  rewrite (IH (added ∪ r)), (IH added).
  destruct (mapFields recurse baseName fs ∅); simpl; [|done].
  by rewrite (assoc_L (∪)).
Qed.

(** A field tagged dontMap:"true" is passed over. *)
Lemma mapField_dontMap r t v :
  Tag_Get (Tag t) "dontMap" = "true" → mapField recurse baseName r (t, v) = Ok r.
Proof. intros H. unfold mapField. by rewrite decide_True. Qed.

Lemma mapFields_dontMap pre post t v r :
  Tag_Get (Tag t) "dontMap" = "true" →
  mapFields recurse baseName (pre ++ (t, v) :: post) r
  = mapFields recurse baseName (pre ++ post) r.
Proof.
  intros H. rewrite !mapFields_app.
  destruct (mapFields recurse baseName pre r) as [r'|]; [|done].
  unfold obind. by rewrite mapFields_cons, mapField_dontMap.
Qed.

(** An included, exported field that is not a struct. *)
Lemma mapField_scalar r t v :
  Tag_Get (Tag t) "dontMap" ≠ "true" → PkgPath t = "" → Kind v ≠ reflect.Struct →
  mapField recurse baseName r (t, v)
  = Ok (if omitted (Kind v) (Sprint F v) then r
        else <[fieldName t baseName := Sprint F v]> r).
Proof.
  intros Hd He Hk. unfold mapField, Interface.
  rewrite decide_False, decide_False, decide_True by done. simpl.
  by destruct (omitted _ _).
Qed.

(** An included, exported field that is a struct. *)
Lemma mapField_struct r t v :
  Tag_Get (Tag t) "dontMap" ≠ "true" → PkgPath t = "" → Kind v = reflect.Struct →
  mapField recurse baseName r (t, v)
  = omap_outcome (λ m, m ∪ r) (recurse v (fieldName t baseName)).
Proof.
  intros Hd He Hk. unfold mapField, Interface.
  rewrite decide_False, !decide_True by done. simpl.
  by destruct (recurse _ _).
Qed.
End fields_facts.

Section encoder_facts.
Context {F : Fmt} {U : Unicode}.

Lemma mapStructNested_struct fs baseName :
  mapStructNested (VStruct fs) baseName = mapFields mapStructNested baseName fs ∅.
Proof. done. Qed.

Lemma mapStructNested_deref s baseName :
  mapStructNested s baseName
  = obind (deref s) (λ s',
      match s' with
      | VStruct fs => mapFields mapStructNested baseName fs ∅
      | _ => Panic NumFieldOfNonStruct
      end).
Proof.
  induction s using value_ind_deep; simpl; done.
Qed.

Lemma mapStructNested_pointer_to n s baseName :
  mapStructNested (pointer_to n s) baseName = mapStructNested s baseName.
Proof. induction n as [|n IH]; simpl; done. Qed.
End encoder_facts.

(** ** Keys *)

Lemma obind_Ok {A B : Type} (a : A) (f : A → outcome B) : obind (Ok a) f = f a.
Proof. done. Qed.

Lemma fieldName_prefixed {U : Unicode} t baseName :
  baseName ≠ "" →
  fieldName t baseName = (baseName +:+ "[") +:+ (fieldName t "" +:+ "]").
Proof.
  intros Hb. unfold fieldName.
  rewrite (decide_True _ _ Hb), (decide_False (P := "" ≠ "")) by (by intros []).
  by rewrite append_assoc.
Qed.

Lemma fieldName_nonempty {U : Unicode} t baseName : baseName ≠ "" → fieldName t baseName ≠ "".
Proof.
  intros Hb. rewrite fieldName_prefixed by done.
  intros [[? _]%append_eq_nil _]%append_eq_nil. done.
Qed.

Section key_facts.
Context {F : Fmt} {U : Unicode}.

Implicit Types (fs pre post : list (StructField * value)).
Implicit Types (r m : gmap string string).

(** What one field writes: nothing, one key, or the keys of a nested
    record. *)
Lemma mapField_inv baseName r tv r' :
  mapField mapStructNested baseName r tv = Ok r' →
  r' = r
  ∨ (Kind tv.2 ≠ reflect.Struct ∧ ∃ x, r' = <[fieldName tv.1 baseName := x]> r)
  ∨ (Kind tv.2 = reflect.Struct
     ∧ ∃ m, mapStructNested tv.2 (fieldName tv.1 baseName) = Ok m ∧ r' = m ∪ r).
Proof.
  destruct tv as [t v]. unfold mapField. simpl.
  case_decide; [intros [= <-]; by left |].
  case_decide.
  - destruct (Interface t v); simpl; [|done].
    destruct (mapStructNested v _) as [m|] eqn:Hm; simpl; [|done].
    intros [= <-]. right; right. eauto.
  - destruct (Interface t v); simpl; [|done].
    destruct (omitted _ _); intros [= <-]; [by left |].
    right; left. eauto.
Qed.

(** Under a non-empty prefix every key starts with the prefix and an opening
    bracket. *)
Lemma mapFields_keys_prefixed baseName k fs :
  baseName ≠ "" →
  Forall (λ tv, ∀ b m, b ≠ "" → mapStructNested tv.2 b = Ok m →
                       is_Some (m !! k) → starts_with (b +:+ "[") k = true) fs →
  ∀ r m, mapFields mapStructNested baseName fs r = Ok m → is_Some (m !! k) →
         is_Some (r !! k) ∨ starts_with (baseName +:+ "[") k = true.
Proof.
  intros Hb. induction 1 as [|tv fs Htv _ IH]; intros r m; simpl.
  { intros [= <-]; by left. }
  destruct (mapField mapStructNested baseName r tv) as [r'|] eqn:Hr'; simpl; [|done].
  intros Hm Hk. destruct (IH _ _ Hm Hk) as [Hk'|]; [|by right].
  apply mapField_inv in Hr' as [->|[(_ & x & ->)|(_ & m' & Hm' & ->)]]; [by left | |].
  - destruct (decide (fieldName tv.1 baseName = k)) as [<-|Hne].
    + right. rewrite fieldName_prefixed by done. apply starts_with_append.
    + left. by rewrite lookup_insert_ne in Hk'.
  - apply lookup_union_is_Some in Hk' as [Hk'|]; [|by left].
    right. apply Htv in Hm'; [|by apply fieldName_nonempty|done].
    rewrite fieldName_prefixed, append_assoc in Hm' by done.
    by apply starts_with_append_l in Hm'.
Qed.

Lemma keys_prefixed s baseName m k :
  baseName ≠ "" → mapStructNested s baseName = Ok m → is_Some (m !! k) →
  starts_with (baseName +:+ "[") k = true.
Proof.
  revert baseName m.
  induction s as [| | | | | | | |s IH| |fs IH] using value_ind_deep;
    intros baseName m Hb; simpl; try done.
  - by apply IH.
  - intros Hm Hk.
    destruct (mapFields_keys_prefixed baseName k fs Hb IH ∅ m Hm Hk) as [Hk'|]; [|done].
    rewrite lookup_empty in Hk'. by destruct Hk'.
Qed.

(** [misses] is a sound test. *)
Lemma misses_sound baseName k tv r r' :
  misses baseName k tv = true →
  mapField mapStructNested baseName r tv = Ok r' → r' !! k = r !! k.
Proof.
  unfold misses. intros Hmiss Hr'.
  destruct tv as [t v]; simpl in Hmiss.
  apply orb_prop in Hmiss as [Hd%bool_decide_eq_true|Hmiss].
  { rewrite mapField_dontMap in Hr' by done. by injection Hr' as <-. }
  apply mapField_inv in Hr' as [->|[(Hk & x & ->)|(Hk & m' & Hm' & ->)]]; simpl in *.
  - done.
  - rewrite bool_decide_eq_false_2 in Hmiss by done.
    apply negb_true_iff, bool_decide_eq_false in Hmiss.
    by rewrite lookup_insert_ne.
  - rewrite bool_decide_eq_true_2 in Hmiss by done.
    apply andb_prop in Hmiss as [Hne%negb_true_iff%bool_decide_eq_false Hpre%negb_true_iff].
    apply lookup_union_r. destruct (m' !! k) as [x|] eqn:Hx; [|done].
    rewrite (keys_prefixed _ _ m' k Hne Hm') in Hpre; [done | by eexists].
Qed.

Lemma mapFields_misses baseName k fs r m :
  Forall (λ tv, misses baseName k tv = true) fs →
  mapFields mapStructNested baseName fs r = Ok m → m !! k = r !! k.
Proof.
  intros Hfs. revert r. induction Hfs as [|tv fs Htv _ IH]; intros r; simpl.
  { by intros [= <-]. }
  destruct (mapField mapStructNested baseName r tv) as [r'|] eqn:Hr'; simpl; [|done].
  intros Hm. rewrite (IH _ Hm). by eapply misses_sound.
Qed.

(** The key of a scalar field that no other field of the record can write. *)
Lemma mapFields_lookup_scalar baseName pre post t v m :
  included t → readable t → Kind v ≠ reflect.Struct →
  Forall (λ tv, misses baseName (fieldName t baseName) tv = true) (pre ++ post) →
  mapFields mapStructNested baseName (pre ++ (t, v) :: post) ∅ = Ok m →
  m !! fieldName t baseName
  = if omitted (Kind v) (Sprint F v) then None else Some (Sprint F v).
Proof.
  intros Hi He Hk [Hpre Hpost]%Forall_app. rewrite mapFields_app.
  destruct (mapFields mapStructNested baseName pre ∅) as [r|] eqn:Hr; [|done].
  rewrite obind_Ok, mapFields_cons, mapField_scalar, obind_Ok by done. intros Hm.
  rewrite (mapFields_misses _ _ _ _ _ Hpost Hm).
  destruct (omitted _ _).
  - by rewrite (mapFields_misses _ _ _ _ _ Hpre Hr), lookup_empty.
  - by rewrite lookup_insert_eq.
Qed.

(** A key written by a nested record survives when no later field of the
    outer record can write it. *)
Lemma mapFields_lookup_struct baseName k pre post t v r m :
  included t → readable t → Kind v = reflect.Struct →
  Forall (λ tv, misses baseName k tv = true) post →
  mapFields mapStructNested baseName (pre ++ (t, v) :: post) r = Ok m →
  ∃ mv, mapStructNested v (fieldName t baseName) = Ok mv
        ∧ ∀ x, mv !! k = Some x → m !! k = Some x.
Proof.
  intros Hi He Hk Hpost. rewrite mapFields_app.
  destruct (mapFields mapStructNested baseName pre r) as [r'|] eqn:Hr; [|done].
  rewrite obind_Ok, mapFields_cons, mapField_struct by done.
  destruct (mapStructNested v _) as [mv|]; [|done].
  unfold omap_outcome. rewrite obind_Ok.
  intros Hm. exists mv. split; [done |]. intros x Hx.
  rewrite (mapFields_misses _ _ _ _ _ Hpost Hm).
  by apply lookup_union_Some_l.
Qed.

(** ** The encoder returns *)

Lemma mapFields_total baseName fs r :
  Forall field_ok fs → ∃ m, mapFields mapStructNested baseName fs r = Ok m.
Proof.
  intros Hfs. revert r. induction Hfs as [|[t v] fs Htv _ IH]; intros r; simpl.
  { by eexists. }
  destruct Htv as [Hd|[He Hs]]; simpl in *.
  - rewrite decide_True by done. simpl. apply IH.
  - unfold Interface. rewrite (decide_True _ _ He).
    case_decide; [simpl; apply IH |].
    case_decide as Hk; simpl.
    + destruct (Hs Hk (fieldName t baseName)) as [m ->]. simpl. apply IH.
    + destruct (omitted _ _); apply IH.
Qed.

Lemma encodes_struct fs : Forall field_ok fs → encodes (VStruct fs).
Proof. intros Hfs baseName. by apply mapFields_total. Qed.

Lemma encodes_ptr v : encodes v → encodes (VPtr (Some v)).
Proof. intros Hv baseName. apply Hv. Qed.
End key_facts.

(** ** Fields by position *)

Section position_facts.
Context {F : Fmt} {U : Unicode}.

Implicit Types (fs : list (StructField * value)) (m : gmap string string).

Lemma lookup_leaf fs baseName i t v m :
  fs !! i = Some (t, v) →
  included t → readable t → Kind v ≠ reflect.Struct →
  Forall (λ tv, misses baseName (fieldName t baseName) tv = true)
         (take i fs ++ drop (S i) fs) →
  mapStructNested (VStruct fs) baseName = Ok m →
  m !! fieldName t baseName
  = if omitted (Kind v) (Sprint F v) then None else Some (Sprint F v).
Proof.
  intros Hi Hinc He Hk Hmiss Hm.
  rewrite <- (take_drop_middle fs i (t, v) Hi), mapStructNested_struct in Hm.
  by apply (mapFields_lookup_scalar baseName (take i fs) (drop (S i) fs)).
Qed.

Lemma lookup_nested_last fs baseName k i t v m :
  fs !! i = Some (t, v) →
  included t → readable t → Kind v = reflect.Struct →
  Forall (λ tv, misses baseName k tv = true) (drop (S i) fs) →
  mapStructNested (VStruct fs) baseName = Ok m →
  ∃ mv, mapStructNested v (fieldName t baseName) = Ok mv
        ∧ ∀ x, mv !! k = Some x → m !! k = Some x.
Proof.
  intros Hi Hinc He Hk Hmiss Hm.
  rewrite <- (take_drop_middle fs i (t, v) Hi), mapStructNested_struct in Hm.
  by apply (mapFields_lookup_struct baseName k (take i fs) (drop (S i) fs) t v ∅).
Qed.

Lemma lookup_nested_only fs baseName k i t v m :
  fs !! i = Some (t, v) →
  included t → readable t → Kind v = reflect.Struct →
  Forall (λ tv, misses baseName k tv = true) (take i fs ++ drop (S i) fs) →
  mapStructNested (VStruct fs) baseName = Ok m →
  ∃ mv, mapStructNested v (fieldName t baseName) = Ok mv ∧ m !! k = mv !! k.
Proof.
  intros Hi Hinc He Hk [Hpre Hpost]%Forall_app.
  rewrite <- (take_drop_middle fs i (t, v) Hi) at 1.
  rewrite mapStructNested_struct, mapFields_app.
  destruct (mapFields mapStructNested baseName (take i fs) ∅) as [r|] eqn:Hr; [|done].
  rewrite obind_Ok, mapFields_cons, mapField_struct by done.
  destruct (mapStructNested v _) as [mv|]; [|done].
  unfold omap_outcome. rewrite obind_Ok. intros Hm. exists mv. split; [done |].
  rewrite (mapFields_misses _ _ _ _ _ Hpost Hm).
  apply (mapFields_misses _ _ _ _ _ Hpre) in Hr. rewrite lookup_empty in Hr.
  destruct (mv !! k) as [x|] eqn:Hx.
  - by apply lookup_union_Some_l.
  - by apply lookup_union_None_2.
Qed.

Lemma lookup_none fs baseName k m :
  Forall (λ tv, misses baseName k tv = true) fs →
  mapStructNested (VStruct fs) baseName = Ok m → m !! k = None.
Proof.
  intros Hfs Hm. rewrite mapStructNested_struct in Hm.
  by rewrite (mapFields_misses _ _ _ _ _ Hfs Hm), lookup_empty.
Qed.
End position_facts.

(** ** The records of the shipment file encode *)

(** Goals [Forall P [x1; ...; xn]] whose instances are settled by [tac]. *)
Ltac each_field tac :=
  repeat (apply Forall_cons_2; [tac |]); apply Forall_nil_2.

Ltac by_evaluation := vm_compute; reflexivity.

Create HintDb encodes.

Ltac field_is_ok :=
  first
    [ left; by_evaluation
    | right; split; [by_evaluation |];
      first [ intros Hkind; by inversion Hkind
            | intros _; cbn [snd]; solve [auto with encodes]
            | intros _; apply encodes_struct;
              repeat (apply Forall_cons_2; [field_is_ok |]); apply Forall_nil_2 ] ].

Section records_encode.
Context {F : Fmt} {U : Unicode}.

Lemma CustomContent_encodes (c : CustomContent.t) : encodes (to_value c).
Proof. apply encodes_struct. each_field field_is_ok. Qed.
Hint Resolve CustomContent_encodes : encodes.

Lemma Custom_encodes (c : Custom.t) : encodes (to_value c).
Proof. apply encodes_struct. each_field field_is_ok. Qed.
Hint Resolve Custom_encodes : encodes.

Lemma Package_encodes (p : Package.t) : encodes (to_value p).
Proof. apply encodes_struct. each_field field_is_ok. Qed.
Hint Resolve Package_encodes : encodes.

Lemma Shipment_encodes (s : Shipment.t) :
  encodes (to_value (Shipment.To s)) → encodes (to_value (Shipment.From s)) →
  encodes (ptr_to s).
Proof.
  intros Hto Hfrom. apply encodes_ptr, encodes_struct. each_field field_is_ok.
Qed.
End records_encode.

(** * The claims *)

Ltac is_included := intros Hincluded; vm_compute in Hincluded; discriminate Hincluded.

(** C2.  A field tagged dontMap:"true" leaves no trace in the output: the
    encoding of a record is the encoding of the record without that field,
    whatever the field holds (a nested record, a value on which the encoder
    would panic, an unexported field), so the encoder neither emits a key for
    it nor recurses into it.  For a Shipment, none of the keys that would name
    its response-only fields, or those of its Package, is in the output. *)
Theorem dontMap_field_is_never_encoded {F : Fmt} {U : Unicode} :
  (∀ pre post t v baseName,
     Tag_Get (Tag t) "dontMap" = "true" →
     mapStructNested (VStruct (pre ++ (t, v) :: post)) baseName
     = mapStructNested (VStruct (pre ++ post)) baseName)
  ∧ (∀ (s : Shipment.t) m k,
       mapStruct (ptr_to s) = Ok m → k ∈ response_only_keys → m !! k = None).
Proof.
  split.
  - intros pre post t v baseName Hd.
    rewrite !mapStructNested_struct. by apply mapFields_dontMap.
  - intros s m k Hm Hk.
    change (mapStructNested (to_value s) "" = Ok m) in Hm.
    unfold to_value, Shipment_value in Hm.
    unfold response_only_keys in Hk.
    do 6 (apply elem_of_cons in Hk as [->|Hk];
          [eapply lookup_none; [|exact Hm]; each_field by_evaluation |]).
    repeat (apply elem_of_cons in Hk as [->|Hk];
            [eapply (lookup_nested_only _ "" _ 4) in Hm as (mv & Hmv & ->);
               [| reflexivity | is_included | by_evaluation | by_evaluation
                | cbn [take drop app]; each_field by_evaluation];
             unfold to_value, Package_value in Hmv;
             eapply lookup_none; [|exact Hmv]; each_field by_evaluation |]).
    by apply elem_of_nil in Hk.
Qed.

Lemma fieldName_bracket {U : Unicode} t baseName :
  baseName ≠ "" → fieldName t baseName = bracket baseName (fieldName t "").
Proof.
  intros Hb. rewrite fieldName_prefixed by done. unfold bracket.
  by rewrite append_assoc.
Qed.

(** C1.  A leaf field [tf] of a record nested under field [tn] is emitted
    under the bracket-chained key: with [n] and [f] the two fields' own names,
    the key is [n[f]] when the record is encoded at top level and [p[n][f]]
    under a prefix [p]; the output holds the rendering of the leaf there
    (for a leaf that is not omitted, in a record whose fields are readable,
    when no later field writes the same key).  For every Shipment whose
    addresses encode and whose customs contents are described as "Gift", the
    output maps package[customs][contents][description] to "Gift". *)
Theorem nested_leaf_key {F : Fmt} {U : Unicode} :
  (∀ fs ifs baseName i j tn tf v,
     fs !! i = Some (tn, VStruct ifs) → ifs !! j = Some (tf, v) →
     included tn → readable tn → included tf → readable tf →
     fieldName tn "" ≠ "" →
     Kind v ≠ reflect.Struct → omitted (Kind v) (Sprint F v) = false →
     Forall field_ok fs →
     let n := fieldName tn "" in
     let f := fieldName tf "" in
     let key := if decide (baseName = "") then bracket n f
                else bracket (bracket baseName n) f in
     Forall (λ tv, misses baseName key tv = true) (drop (S i) fs) →
     Forall (λ tv, misses (fieldName tn baseName) key tv = true)
            (take j ifs ++ drop (S j) ifs) →
     ∃ m, mapStructNested (VStruct fs) baseName = Ok m
          ∧ m !! key = Some (Sprint F v))
  ∧ (∀ s : Shipment.t,
       encodes (to_value (Shipment.To s)) → encodes (to_value (Shipment.From s)) →
       CustomContent.Description
         (Custom.Contents (Package.Customs (Shipment.Package s))) = "Gift" →
       ∃ m, mapStruct (ptr_to s) = Ok m
            ∧ m !! "package[customs][contents][description]" = Some "Gift").
Proof.
  split.
  - intros fs ifs baseName i j tn tf v Hi Hj Hin Hrn Hif Hrf Hn Hk Hom Hok n f key.
    assert (key = fieldName tf (fieldName tn baseName)) as ->.
    { unfold key, n, f. case_decide as Hb.
      - subst baseName. by rewrite (fieldName_bracket tf (fieldName tn "")).
      - rewrite (fieldName_bracket tn baseName) by done.
        rewrite (fieldName_bracket tf (bracket _ _)); [done |].
        unfold bracket. by intros [? _]%append_eq_nil. }
    intros Hpost Hipost.
    destruct (mapFields_total baseName fs ∅ Hok) as [m Hm].
    exists m. split; [done |].
    destruct (lookup_nested_last fs baseName _ i tn _ m Hi Hin Hrn eq_refl Hpost Hm)
      as (mv & Hmv & Hlift).
    apply Hlift.
    rewrite (lookup_leaf ifs _ j tf v mv Hj Hif Hrf Hk Hipost Hmv).
    by rewrite Hom.
  - intros s Hto Hfrom Hgift.
    destruct (Shipment_encodes s Hto Hfrom "") as [m Hm].
    exists m. split; [done |].
    change (mapStructNested (to_value s) "" = Ok m) in Hm.
    unfold to_value, Shipment_value in Hm.
    eapply (lookup_nested_last _ "" "package[customs][contents][description]" 4)
      in Hm as (mp & Hmp & Hlift);
      [| reflexivity | is_included | by_evaluation | by_evaluation
       | cbn [drop]; each_field by_evaluation].
    apply Hlift. clear Hlift.
    unfold to_value, Package_value in Hmp.
    eapply (lookup_nested_last _ _ "package[customs][contents][description]" 6)
      in Hmp as (mc & Hmc & Hlift);
      [| reflexivity | is_included | by_evaluation | by_evaluation
       | cbn [drop]; each_field by_evaluation].
    apply Hlift. clear Hlift.
    unfold to_value, Custom_value in Hmc.
    eapply (lookup_nested_last _ _ "package[customs][contents][description]" 3)
      in Hmc as (mi & Hmi & Hlift);
      [| reflexivity | is_included | by_evaluation | by_evaluation
       | cbn [drop]; each_field by_evaluation].
    apply Hlift. clear Hlift.
    unfold to_value, CustomContent_value in Hmi. rewrite Hgift in Hmi.
    eapply (lookup_leaf _ _ 0) in Hmi;
      [| reflexivity | is_included | by_evaluation | by inversion 1
       | cbn [take drop app]; each_field by_evaluation].
    exact Hmi.
Qed.

(** ** The omission test, kind by kind *)

Lemma omitted_Int n : omitted reflect.Int (Itoa n) = bool_decide (n = 0).
Proof.
  unfold omitted. rewrite (bool_decide_eq_false_2 (Itoa n = "")) by apply Itoa_nonempty.
  rewrite orb_false_r. simpl. apply bool_decide_ext, Itoa_zero.
Qed.

Lemma omitted_Float32 {F : Fmt} `{!FmtFloat32 F} bits :
  omitted reflect.Float32 (fmt_other (VFloat32 bits)) = bool_decide (bits = 0).
Proof.
  unfold omitted.
  rewrite (bool_decide_eq_false_2 (_ = "")) by apply fmt_float32_nonempty.
  rewrite orb_false_r. simpl. apply bool_decide_ext, fmt_float32_zero.
Qed.

Lemma omitted_other k x :
  k ≠ reflect.Float32 → k ≠ reflect.Int → omitted k x = bool_decide (x = "").
Proof.
  intros H1 H2. unfold omitted. by rewrite !bool_decide_eq_false_2 by done.
Qed.

(** strings.ToLower on ASCII bytes, byte by byte. *)
Lemma lower_bytes_length (s : string) : String.length (lower_bytes s) = String.length s.
Proof.
  induction s as [|c s IH]; simpl; [done | by rewrite IH].
Qed.

Lemma lower_bytes_get (s : string) (i : nat) (c : ascii) :
  String.get i s = Some c → String.get i (lower_bytes s) = Some (lower_ascii c).
Proof.
  revert i. induction s as [|b s IH]; intros [|i]; simpl; try done.
  - by intros [= ->].
  - apply IH.
Qed.

(** C4.  The name of a field is its json tag when that is not empty and its
    declared name in lower case, as strings.ToLower gives it, otherwise.  In
    lower case means: in a name of ASCII bytes each of the letters A to Z,
    at whatever position, is replaced by the letter 32 places further (a to
    z), every other byte is kept, and the length is the same; a name with a
    byte outside ASCII is lowered by the library's Unicode tables.  Under a
    non-empty prefix the emitted name is prefix[name], under the empty prefix
    the bare name.  The encoder emits a scalar under exactly that name and
    recurses into a nested record with that name as the new prefix.
    PackageCount, tagged json:"package_count", is emitted as package_count;
    Carrier, untagged, as carrier; an untagged HSTariffNumber would be
    hstariffnumber. *)
Theorem effective_name {F : Fmt} {U : Unicode} :
  (∀ t, Tag_Get (Tag t) "json" ≠ "" → fieldName t "" = Tag_Get (Tag t) "json")
  ∧ (∀ t, Tag_Get (Tag t) "json" = "" → fieldName t "" = ToLower (Name t))
  ∧ (∀ s, isASCII s = true →
       String.length (ToLower s) = String.length s
       ∧ ∀ (i : nat) c, String.get i s = Some c →
           String.get i (ToLower s)
           = Some (if decide (65 ≤ Ascii.N_of_ascii c ≤ 90)%N
                   then Ascii.ascii_of_N (Ascii.N_of_ascii c + 32) else c))
  ∧ (∀ s, isASCII s = false → ToLower s = unicode_ToLower s)
  ∧ (∀ t baseName,
       baseName ≠ "" → fieldName t baseName = bracket baseName (fieldName t ""))
  ∧ (∀ t v baseName,
       included t → readable t → Kind v ≠ reflect.Struct →
       omitted (Kind v) (Sprint F v) = false →
       mapStructNested (VStruct [(t, v)]) baseName
       = Ok {[ fieldName t baseName := Sprint F v ]})
  ∧ (∀ t v baseName,
       included t → readable t → Kind v = reflect.Struct →
       mapStructNested (VStruct [(t, v)]) baseName
       = mapStructNested v (fieldName t baseName))
  ∧ fieldName (field "PackageCount" [json "package_count"]) "" = "package_count"
  ∧ fieldName (field "Carrier" []) "" = "carrier"
  ∧ fieldName (field "HSTariffNumber" []) "" = "hstariffnumber".
Proof.
  split_and!.
  - intros t Hj. unfold fieldName.
    by rewrite (decide_True _ _ Hj), (decide_False (P := "" ≠ "")) by (by intros []).
  - intros t Hj. unfold fieldName. rewrite Hj.
    by rewrite !(decide_False (P := "" ≠ "")) by (by intros []).
  - intros s Hs. unfold ToLower. rewrite Hs. split.
    + apply lower_bytes_length.
    + intros i c Hc. by rewrite (lower_bytes_get s i c Hc).
  - intros s Hs. unfold ToLower. by rewrite Hs.
  - intros t baseName Hb. by apply fieldName_bracket.
  - intros t v baseName Hinc Hr Hk Hom.
    rewrite mapStructNested_struct, mapFields_cons, mapField_scalar by done.
    by rewrite Hom, insert_empty.
  - intros t v baseName Hinc Hr Hk.
    rewrite mapStructNested_struct, mapFields_cons, mapField_struct by done.
    destruct (mapStructNested v _); [|done].
    simpl. by rewrite (right_id_L ∅ (∪)).
  - by_evaluation.
  - by_evaluation.
  - by_evaluation.
Qed.

Lemma deref_struct_inv s fs : deref s = Ok (VStruct fs) → ∃ n, s = pointer_to n (VStruct fs).
Proof.
  induction s as [| | | | | | | |s IH| |fs' _] using value_ind_deep; simpl; try done.
  - intros [n ->]%IH. by exists (S n).
  - intros [= ->]. by exists 0%nat.
Qed.

(** C8, as the code has it.  The value handed to the encoder is followed
    through any number of pointers: a record behind [n] pointers encodes, under
    every prefix, as the record itself.  Recursion into a field happens only
    for a field whose own kind is struct (and then goes through the same
    unwrapping).  A field that holds a pointer, to a record or to anything
    else, is not followed: it is rendered as one scalar under the field's own
    name. *)
Theorem pointer_indirection {F : Fmt} {U : Unicode} :
  (∀ n s baseName,
     mapStructNested (pointer_to n s) baseName = mapStructNested s baseName)
  ∧ (∀ n t v baseName,
       included t → readable t → Kind v = reflect.Struct →
       mapStructNested (VStruct [(t, v)]) baseName
       = mapStructNested (pointer_to n v) (fieldName t baseName))
  ∧ (∀ t q baseName,
       included t → readable t →
       mapStructNested (VStruct [(t, VPtr q)]) baseName
       = Ok (if decide (fmt_other (VPtr q) = "") then ∅
             else {[ fieldName t baseName := fmt_other (VPtr q) ]})).
Proof.
  repeat split.
  - intros n s baseName. apply mapStructNested_pointer_to.
  - intros n t v baseName Hinc Hr Hk.
    rewrite mapStructNested_pointer_to.
    rewrite mapStructNested_struct, mapFields_cons, mapField_struct by done.
    destruct (mapStructNested v _); [|done].
    simpl. by rewrite (right_id_L ∅ (∪)).
  - intros t q baseName Hinc Hr.
    rewrite mapStructNested_struct, mapFields_cons, mapField_scalar by done.
    simpl. rewrite omitted_other by done.
    case_decide as Hq.
    + by rewrite bool_decide_eq_true_2.
    + by rewrite bool_decide_eq_false_2, insert_empty.
Qed.

(** C9.  On a value that is not a record behind zero or more pointers the
    encoder panics: it returns no map at all, empty or partial. *)
Theorem non_record_panics {F : Fmt} {U : Unicode} (s : value) (baseName : string) :
  (∀ n fs, s ≠ pointer_to n (VStruct fs)) →
  panics (mapStructNested s baseName) ∧ ∀ m, mapStructNested s baseName ≠ Ok m.
Proof.
  intros Hs.
  assert (panics (mapStructNested s baseName)) as Hp.
  { rewrite mapStructNested_deref.
    destruct (deref s) as [s'|] eqn:Hd; [|done].
    destruct s' as [| | | | | | | | |fs]; try done.
    apply deref_struct_inv in Hd as [n ->]. by destruct (Hs n fs). }
  split; [done |]. intros m Hm. by rewrite Hm in Hp.
Qed.

(** ** urlencode *)

Lemma urlencode_arr_filter entries :
  urlencode_arr entries
  = (λ kv, kv.1 +:+ "=" +:+ QueryEscape kv.2) <$> filter (λ kv, kv.2 ≠ "") entries.
Proof.
  unfold urlencode_arr.
  enough (∀ arr,
    fold_left (λ arr kv, if decide (kv.2 ≠ "")
                         then arr ++ [kv.1 +:+ "=" +:+ QueryEscape kv.2] else arr)
      entries arr
    = arr ++ ((λ kv, kv.1 +:+ "=" +:+ QueryEscape kv.2)
                <$> filter (λ kv, kv.2 ≠ "") entries)) as H by apply (H []).
  induction entries as [|kv entries IH]; intros arr; simpl.
  { by rewrite app_nil_r. }
  rewrite IH, filter_cons. case_decide; [|done].
  by rewrite fmap_cons, <- app_assoc.
Qed.

Lemma map_to_list_filter_perm (P : string * string → Prop) `{∀ kv, Decision (P kv)}
    (params : gmap string string) :
  filter P (map_to_list params) ≡ₚ map_to_list (filter P params).
Proof.
  apply NoDup_Permutation.
  - apply NoDup_filter, NoDup_map_to_list.
  - apply NoDup_map_to_list.
  - intros [k v]. rewrite list_elem_of_filter, !elem_of_map_to_list.
    rewrite map_lookup_filter_Some. tauto.
Qed.

(** C10.  urlencode returns, and whatever order the range over the map
    takes, its result is "&", then one pair key=QueryEscape(value) for each
    entry of the map whose value is not empty (the entries with an empty
    value are dropped), the pairs joined by "&", then "&"; so a map with no
    entry, or with empty values only, gives "&&". *)
Theorem urlencode_shape (params : gmap string string) :
  (∃ out, urlencode params out)
  ∧ ∀ out, urlencode params out →
      (∃ kept,
         ranges_over (filter (λ kv, kv.2 ≠ "") params) kept
         ∧ out = "&" +:+ Join ((λ kv, kv.1 +:+ "=" +:+ QueryEscape kv.2) <$> kept) "&"
                 +:+ "&")
      ∧ ((∀ k v, params !! k = Some v → v = "") → out = "&&").
Proof.
  split.
  { exists (urlencode_in (map_to_list params)), (map_to_list params).
    split; [unfold ranges_over |]; done. }
  intros out (entries & Hentries & ->). unfold urlencode_in, ranges_over in *.
  rewrite urlencode_arr_filter. split.
  - exists (filter (λ kv, kv.2 ≠ "") entries). split; [|done].
    rewrite Hentries. apply map_to_list_filter_perm.
  - intros Hempty.
    assert (filter (λ kv : string * string, kv.2 ≠ "") entries = []) as ->; [|done].
    apply Permutation_nil_r. rewrite Hentries, map_to_list_filter_perm.
    rewrite (map_empty_filter_2 (λ kv : string * string, kv.2 ≠ "") params).
    + by rewrite map_to_list_empty.
    + intros k v Hkv. simpl. rewrite (Hempty k v Hkv). by intros [].
Qed.

(** ** The shipment calls *)

Section calls.
Context {F : Fmt} {U : Unicode} {TrackingResponse : Type} (zero : TrackingResponse).

Abbreviation transport := (transport (TrackingResponse := TrackingResponse)).

(** C5.  Against every transport: Create on a shipment whose Id is not -1,
    Get, Void and Track on a shipment whose Id is -1, and FindShipments with
    an empty query each return their error at once; the log of requests
    attempted is empty, and Create returns before it encodes (also for a
    shipment on which the encoder would panic). *)
Theorem precondition_errors (h : transport) :
  (∀ s, Shipment.Id s ≠ -1 →
     run h (Create s) = ([], Ok (None, Some "You can't create an existing shipment.")))
  ∧ (∀ s, Shipment.Id s = -1 →
       run h (Get s) = ([], Ok (None, Some "You must provide a shipment ID."))
       ∧ run h (Void s) = ([], Ok (s, (false, Some "You must provide a shipment ID.")))
       ∧ run h (Track zero s) = ([], Ok (None, Some "You must provide a shipment ID.")))
  ∧ (∀ p limit cursor,
       run h (FindShipments p "" limit cursor)
       = ([], Ok (None, Some "You must provide search query."))).
Proof.
  repeat split.
  - intros s Hid. unfold Create. by rewrite decide_True.
  - unfold Get. by rewrite decide_True.
  - unfold Void. by rewrite decide_True.
  - unfold Track. by rewrite decide_True.
Qed.

(** C6, as the code has it.  Void on a shipment with an identifier sends
    one DELETE request.
    With [message] the entry "message" of the decoded response: when it is
    "OK" the shipment's Status becomes "Voided" and the boolean is true;
    otherwise the shipment is unchanged and the boolean is false.  The error
    returned is the transport's own, whatever the message: nil exactly when
    the transport returned nil. *)
Theorem Void_outcome (h : transport) (s : Shipment.t) :
  Shipment.Id s ≠ -1 →
  let rq := mkRequest DELETE (Shipment.p s) "v1"
              ("shipments/" +:+ Itoa (Shipment.Id s) +:+ "/void") None in
  let reply : gmap string string * error := h IntoMessage rq ∅ in
  let message := default "" (reply.1 !! "message") in
  ∃ s' ok,
    run h (Void s) = ([rq], Ok (s', (ok, reply.2)))
    ∧ (message = "OK" →
       s' = Shipment.set_Status "Voided" s ∧ Shipment.Status s' = "Voided" ∧ ok = true)
    ∧ (message ≠ "OK" → s' = s ∧ ok = false).
Proof.
  intros Hid rq reply message. unfold Void. rewrite decide_False by done.
  cbn [run]. fold rq. change (h IntoMessage rq ∅) with reply.
  destruct reply as [res err] eqn:Hreply. cbn [run fst snd]. subst message. simpl.
  eexists _, _. split; [reflexivity |].
  split; intros Hmsg.
  - by rewrite decide_True, bool_decide_eq_true_2.
  - by rewrite decide_False, bool_decide_eq_false_2.
Qed.

(** C7, as the code has it.  ListShipments sends one GET request whose
    parameters are built from the arguments: limit, in decimal, exactly when
    limit is greater than zero (a zero or a negative limit is left out),
    cursor and status exactly when they are not empty, and nothing else.
    With (0, "", "") the parameters are empty; with (10, "", "pending") they
    are limit=10 and status=pending. *)
Theorem ListShipments_parameters (h : transport) (p : option Postmaster)
    (limit : Z) (cursor status : string) :
  let params := ListShipments_params limit cursor status in
  (run h (ListShipments p limit cursor status)).1
  = [mkRequest GET p "v1" "shipments" (Some params)]
  ∧ params !! "limit" = (if decide (limit > 0) then Some (Itoa limit) else None)
  ∧ params !! "cursor" = (if decide (cursor ≠ "") then Some cursor else None)
  ∧ params !! "status" = (if decide (status ≠ "") then Some status else None)
  ∧ dom params ⊆ {[ "limit"; "cursor"; "status" ]}
  ∧ ListShipments_params 0 "" "" = ∅
  ∧ ListShipments_params 10 "" "pending" = {[ "limit" := "10"; "status" := "pending" ]}.
Proof.
  intros params. split.
  { unfold ListShipments. cbn [run]. fold params.
    destruct (run h _) as [log r] eqn:Hrun. simpl.
    unfold attach in Hrun. destruct (_.1); by injection Hrun as <- _. }
  unfold params, ListShipments_params.
  split_and!.
  - destruct (decide (limit > 0)), (decide (cursor ≠ "")), (decide (status ≠ ""));
      repeat (rewrite lookup_insert_ne by done);
      by rewrite ?lookup_insert_eq, ?lookup_empty.
  - destruct (decide (limit > 0)), (decide (cursor ≠ "")), (decide (status ≠ ""));
      repeat (rewrite lookup_insert_ne by done);
      by rewrite ?lookup_insert_eq, ?lookup_empty.
  - destruct (decide (limit > 0)), (decide (cursor ≠ "")), (decide (status ≠ ""));
      by rewrite ?lookup_insert_eq, ?lookup_empty.
  - destruct (decide (limit > 0)), (decide (cursor ≠ "")), (decide (status ≠ ""));
      rewrite ?dom_insert_L, dom_empty_L; intros k;
      rewrite ?elem_of_union, ?elem_of_singleton, elem_of_empty; tauto.
  - by_evaluation.
  - by_evaluation.
Qed.
End calls.

(** * The claims at concrete inputs *)

(** The sample shipment encodes to the sample parameters. *)
Lemma new_shipment_encoding :
  mapStruct (F := fmt_table) (U := letters_table) (ptr_to new_shipment) = Ok new_shipment_params.
Proof.
  vm_cast_no_check (eq_refl (Ok new_shipment_params)).
Qed.

Lemma nested_leaf_key_witness :
  (∃ m, mapStructNested (F := fmt_table) (U := letters_table)
          (VStruct [(field "Name" [], VString "box"); (field "Customs" [], inner_record)])
          "package" = Ok m
        ∧ m !! "package[customs][a]" = Some "x")
  ∧ (∃ m, mapStruct (F := fmt_table) (U := letters_table) (ptr_to new_shipment) = Ok m
          ∧ m !! "package[customs][contents][description]" = Some "Gift").
Proof.
  split.
  - apply (proj1 (nested_leaf_key (F := fmt_table) (U := letters_table))
             [(field "Name" [], VString "box"); (field "Customs" [], inner_record)]
             [(field "A" [], VString "x")] "package" 1%nat 0%nat
             (field "Customs" []) (field "A" []) (VString "x"));
      [ reflexivity | reflexivity | is_included | by_evaluation | is_included
      | by_evaluation | is_included | by inversion 1 | by_evaluation
      | each_field field_is_ok | each_field by_evaluation | each_field by_evaluation ].
  - apply (proj2 (nested_leaf_key (F := fmt_table) (U := letters_table)) new_shipment);
      [apply encodes_struct; each_field field_is_ok
      |apply encodes_struct; each_field field_is_ok
      |reflexivity].
Defined.

Lemma dontMap_field_is_never_encoded_witness :
  mapStructNested (F := fmt_table) (U := letters_table)
    (VStruct ([(field "Carrier" [], VString "ups")]
              ++ (field "Cost" [dontMap], inner_record)
              :: [(field "Service" [], VString "ground")])) ""
  = mapStructNested (F := fmt_table) (U := letters_table)
      (VStruct ([(field "Carrier" [], VString "ups")]
                ++ [(field "Service" [], VString "ground")])) ""
  ∧ new_shipment_params !! "id" = None
  ∧ new_shipment_params !! "package[label_url]" = None.
Proof.
  destruct (dontMap_field_is_never_encoded (F := fmt_table) (U := letters_table)) as [Hgeneral Hshipment].
  split_and!.
  - apply Hgeneral. by_evaluation.
  - apply (Hshipment new_shipment new_shipment_params);
      [exact new_shipment_encoding | repeat constructor].
  - apply (Hshipment new_shipment new_shipment_params);
      [exact new_shipment_encoding | repeat constructor].
Defined.

(** C3.  The code at a record with one int64 field that holds zero, the
    Go value struct{ Count int64 }{0}: the field is numeric and holds its
    type's zero value, and the output has its key, count, with the value 0.
    The same record with the field declared int has no key.  Line 62 says
    "Omit all zeros"; the test of line 64 names the kinds float32 and int
    and no other. *)
Lemma int64_zero_is_emitted :
  mapStruct (F := fmt_table) (U := letters_table) (VStruct [(field "Count" [], VInt64 0)])
  = Ok {[ "count" := "0" ]}
  ∧ mapStruct (F := fmt_table) (U := letters_table) (VStruct [(field "Count" [], VInt 0)])
    = Ok ∅.
Proof.
  split; by_evaluation.
Qed.

Lemma effective_name_witness :
  fieldName (U := letters_table) (field "PackageCount" [json "package_count"]) ""
  = "package_count"
  ∧ fieldName (U := letters_table) (field "DimensionUnits" []) "" = "dimensionunits"
  ∧ fieldName (U := letters_table) (field "CAFÉ" []) "" = "café"
  ∧ String.get 2 (ToLower (U := letters_table) "HSTariffNumber") = Some "t"%char
  ∧ fieldName (U := letters_table) (field "Carrier" []) "to" = "to[carrier]"
  ∧ mapStructNested (F := fmt_table) (U := letters_table)
      (VStruct [(field "Carrier" [], VString "ups")]) "to"
    = Ok {[ "to[carrier]" := "ups" ]}
  ∧ mapStructNested (F := fmt_table) (U := letters_table)
      (VStruct [(field "Package" [], to_value gift_package)]) ""
    = mapStructNested (F := fmt_table) (U := letters_table)
        (to_value gift_package) "package".
Proof.
  destruct (effective_name (F := fmt_table) (U := letters_table))
    as (Hjson & Hlower & Hascii & Hunicode & Hprefix & Hleaf & Hrec & _).
  split_and!.
  - apply (Hjson (field "PackageCount" [json "package_count"])). is_included.
  - rewrite (Hlower (field "DimensionUnits" [])) by by_evaluation. by_evaluation.
  - rewrite (Hlower (field "CAFÉ" [])) by by_evaluation.
    change (ToLower (U := letters_table) "CAFÉ" = "café").
    rewrite (Hunicode "CAFÉ") by by_evaluation. by_evaluation.
  - destruct (Hascii "HSTariffNumber") as [_ Hget]; [by_evaluation |].
    apply (Hget 2%nat "T"%char). by_evaluation.
  - apply (Hprefix (field "Carrier" []) "to"). is_included.
  - apply (Hleaf (field "Carrier" []) (VString "ups") "to");
      [is_included | by_evaluation | by inversion 1 | by_evaluation].
  - apply (Hrec (field "Package" []) (to_value gift_package) "");
      [is_included | by_evaluation | by_evaluation].
Defined.

(** C8, as stated, fails for a record reached through a field: the record
    that holds [inner_record] by value has the key inner[a]; the one that
    holds it by pointer has the single key inner, with the rendering of the
    pointer as its value. *)
Lemma pointer_field_is_not_unwrapped :
  mapStruct (F := fmt_table) (U := letters_table) holds_by_value = Ok {[ "inner[a]" := "x" ]}
  ∧ mapStruct (F := fmt_table) (U := letters_table) holds_by_pointer = Ok {[ "inner" := "&{x}" ]}
  ∧ mapStruct (F := fmt_table) (U := letters_table) holds_by_pointer
    ≠ mapStruct (F := fmt_table) (U := letters_table) holds_by_value.
Proof.
  split; [by_evaluation | split; [by_evaluation |]].
  assert (mapStruct (F := fmt_table) (U := letters_table)
      holds_by_value = Ok {[ "inner[a]" := "x" ]}) as ->
    by by_evaluation.
  assert (mapStruct (F := fmt_table) (U := letters_table)
      holds_by_pointer = Ok {[ "inner" := "&{x}" ]}) as ->
    by by_evaluation.
  intros [=].
Qed.

Lemma pointer_indirection_witness :
  mapStructNested (F := fmt_table) (U := letters_table) (pointer_to 2 (to_value new_shipment)) ""
  = mapStructNested (F := fmt_table) (U := letters_table) (to_value new_shipment) ""
  ∧ mapStructNested (F := fmt_table) (U := letters_table) holds_by_value "to"
    = mapStructNested (F := fmt_table) (U := letters_table) (pointer_to 1 inner_record) "to[inner]"
  ∧ mapStructNested (F := fmt_table) (U := letters_table)
      holds_by_pointer "" = Ok {[ "inner" := "&{x}" ]}.
Proof.
  destruct (pointer_indirection (F := fmt_table) (U := letters_table)) as (Htop & Hrec & Hfield).
  split_and!.
  - apply Htop.
  - apply (Hrec 1%nat (field "Inner" []) inner_record "to");
      [is_included | by_evaluation | by_evaluation].
  - apply (Hfield (field "Inner" []) (Some inner_record) "");
      [is_included | by_evaluation].
Defined.

Lemma non_record_panics_witness :
  panics (mapStructNested (F := fmt_table) (U := letters_table) (VInt 7) "")
  ∧ panics (mapStructNested (F := fmt_table) (U := letters_table) (VPtr (Some (VString "x"))) "").
Proof.
  split.
  - apply (non_record_panics (F := fmt_table) (U := letters_table) (VInt 7) "").
    intros [|n] fs; discriminate.
  - apply (non_record_panics (F := fmt_table) (U := letters_table) (VPtr (Some (VString "x"))) "").
    intros [|[|n]] fs; discriminate.
Defined.

Lemma urlencode_shape_witness :
  urlencode sample_params "&c=1&a=x+y&"
  ∧ ∃ kept,
      ranges_over (filter (λ kv, kv.2 ≠ "") sample_params) kept
      ∧ "&c=1&a=x+y&"
        = "&" +:+ Join ((λ kv, kv.1 +:+ "=" +:+ QueryEscape kv.2) <$> kept) "&" +:+ "&".
Proof.
  assert (urlencode sample_params "&c=1&a=x+y&") as Hout.
  { exists (map_to_list sample_params). split; [by unfold ranges_over | by_evaluation]. }
  split; [done |].
  apply (proj2 (urlencode_shape sample_params) _ Hout).
Defined.

Lemma precondition_errors_witness :
  run accepting (Create (F := fmt_table) (U := letters_table) stored_shipment)
  = ([], Ok (None, Some "You can't create an existing shipment."))
  ∧ run accepting (Get new_shipment)
    = ([], Ok (None, Some "You must provide a shipment ID."))
  ∧ run accepting (Void new_shipment)
    = ([], Ok (new_shipment, (false, Some "You must provide a shipment ID.")))
  ∧ run accepting (Track tt new_shipment)
    = ([], Ok (None, Some "You must provide a shipment ID."))
  ∧ run accepting (FindShipments None "" 10 "")
    = ([], Ok (None, Some "You must provide search query.")).
Proof.
  destruct (precondition_errors (F := fmt_table) (U := letters_table)
      tt accepting) as (Hcreate & Hid & Hfind).
  destruct (Hid new_shipment eq_refl) as (Hget & Hvoid & Htrack).
  split_and!; [|done..].
  apply Hcreate. simpl. lia.
Defined.

Lemma Void_outcome_witness :
  run accepting (Void stored_shipment)
  = ([mkRequest DELETE None "v1" "shipments/42/void" None],
     Ok (Shipment.set_Status "Voided" stored_shipment, (true, None))).
Proof.
  assert (Shipment.Id stored_shipment ≠ -1) as Hid by (simpl; lia).
  destruct (Void_outcome accepting stored_shipment Hid) as (s' & ok & Hrun & Hok & _).
  destruct Hok as (-> & _ & ->); [by_evaluation |].
  exact Hrun.
Defined.

(** C6, as stated, fails: the message is OK, so the boolean is true and the
    Status is "Voided", and the error is not nil: it is the error the
    transport returned with the message. *)
Lemma Void_true_with_an_error :
  run accepting_with_error (Void stored_shipment)
  = ([mkRequest DELETE None "v1" "shipments/42/void" None],
     Ok (Shipment.set_Status "Voided" stored_shipment,
         (true, Some "unexpected end of input")))
  ∧ Shipment.Status (Shipment.set_Status "Voided" stored_shipment) = "Voided".
Proof.
  split; by_evaluation.
Qed.

(** C7, as stated, fails: -1 is not the default limit, and it produces no
    entry; the request goes out with an empty parameter set. *)
Lemma negative_limit_is_left_out :
  ListShipments_params (-1) "" "" = ∅
  ∧ (run accepting (ListShipments None (-1) "" "")).1
    = [mkRequest GET None "v1" "shipments" (Some ∅)].
Proof.
  split; by_evaluation.
Qed.

(** * Further properties of the code *)

(** ** The keys and values the encoder produces *)

Lemma starts_with_inv (p s : string) : starts_with p s = true → ∃ r, s = p +:+ r.
Proof.
  revert s. induction p as [|a p IH]; intros s; [by exists s |].
  destruct s as [|b s]; [done |]. simpl.
  intros [->%bool_decide_eq_true [r ->]%IH]%andb_prop. by exists r.
Qed.

(** utils.go, mapStructNested, lines 51-59.  Under a non-empty prefix every
    key of the output is namespaced: it is the prefix, an opening bracket,
    and more. *)
Theorem output_keys_are_namespaced {F : Fmt} {U : Unicode} (s : value) (baseName : string)
    (m : gmap string string) (k : string) :
  baseName ≠ "" → mapStructNested s baseName = Ok m → is_Some (m !! k) →
  ∃ rest, k = baseName +:+ "[" +:+ rest.
Proof.
  intros Hb Hm Hk.
  destruct (starts_with_inv _ _ (keys_prefixed s baseName m k Hb Hm Hk)) as [rest ->].
  exists rest. by rewrite append_assoc.
Qed.

Lemma output_keys_are_namespaced_witness :
  ∃ rest, "to[inner][a]" = "to" +:+ "[" +:+ rest.
Proof.
  apply (output_keys_are_namespaced (F := fmt_table) (U := letters_table) holds_by_value "to"
           {[ "to[inner][a]" := "x" ]} "to[inner][a]").
  - discriminate.
  - vm_cast_no_check (eq_refl (Ok ({[ "to[inner][a]" := "x" ]} : gmap string string))).
  - by rewrite lookup_singleton_eq.
Defined.

Section value_facts.
Context {F : Fmt} {U : Unicode}.

Implicit Types (fs : list (StructField * value)) (r m : gmap string string).

Lemma omitted_false_nonempty k x : omitted k x = false → x ≠ "".
Proof.
  unfold omitted. intros [_ H]%orb_false_elim. by apply bool_decide_eq_false in H.
Qed.

(** What one field writes, with what is known of a scalar's value. *)
Lemma mapField_inv_value baseName r tv r' :
  mapField mapStructNested baseName r tv = Ok r' →
  r' = r
  ∨ (∃ x, x ≠ "" ∧ r' = <[fieldName tv.1 baseName := x]> r)
  ∨ (∃ m, mapStructNested tv.2 (fieldName tv.1 baseName) = Ok m ∧ r' = m ∪ r).
Proof.
  destruct tv as [t v]. unfold mapField. simpl.
  case_decide; [intros [= <-]; by left |].
  case_decide.
  - destruct (Interface t v); simpl; [|done].
    destruct (mapStructNested v _) as [m|] eqn:Hm; simpl; [|done].
    intros [= <-]. right; right. eauto.
  - destruct (Interface t v); simpl; [|done].
    destruct (omitted _ _) eqn:Hom; intros [= <-]; [by left |].
    right; left. eauto using omitted_false_nonempty.
Qed.

Lemma mapFields_values_nonempty baseName fs :
  Forall (λ tv, ∀ b m k x, mapStructNested tv.2 b = Ok m → m !! k = Some x → x ≠ "") fs →
  ∀ r m, (∀ k x, r !! k = Some x → x ≠ "") →
         mapFields mapStructNested baseName fs r = Ok m →
         ∀ k x, m !! k = Some x → x ≠ "".
Proof.
  induction 1 as [|tv fs Htv _ IH]; intros r m Hr; simpl.
  { by intros [= <-]. }
  destruct (mapField mapStructNested baseName r tv) as [r'|] eqn:Hr'; simpl; [|done].
  apply IH. intros k x.
  apply mapField_inv_value in Hr' as [->|[(y & Hy & ->)|(m' & Hm' & ->)]]; [by apply Hr | |].
  - destruct (decide (fieldName tv.1 baseName = k)) as [<-|Hne].
    + rewrite lookup_insert_eq. by intros [= <-].
    + rewrite lookup_insert_ne by done. apply Hr.
  - intros [Hk|[_ Hk]]%lookup_union_Some_raw; [by eapply Htv | by eapply Hr].
Qed.

Lemma values_nonempty s baseName m k x :
  mapStructNested s baseName = Ok m → m !! k = Some x → x ≠ "".
Proof.
  revert baseName m k x.
  induction s as [| | | | | | | |s IH| |fs IH] using value_ind_deep;
    intros baseName m k x; simpl; try done.
  - apply IH.
  - intros Hm. revert k x. eapply mapFields_values_nonempty; [exact IH | | exact Hm].
    intros k' x'. by rewrite lookup_empty.
Qed.
End value_facts.

(** utils.go, mapStructNested, lines 61-67.  No value in the output is the
    empty string, at any depth of nesting. *)
Theorem output_values_are_nonempty {F : Fmt} {U : Unicode} (s : value) (baseName : string)
    (m : gmap string string) :
  mapStructNested s baseName = Ok m → map_Forall (λ _ x, x ≠ "") m.
Proof. intros Hm k x Hkx. by apply (values_nonempty s baseName m k x). Qed.

Lemma output_values_are_nonempty_witness :
  map_Forall (λ _ x, x ≠ "") new_shipment_params.
Proof.
  apply (output_values_are_nonempty (F := fmt_table) (U := letters_table) (ptr_to new_shipment) "").
  exact new_shipment_encoding.
Defined.

(** ** The omission test on one field *)

Lemma omitted_spec {F : Fmt} `{!FmtFloat32 F} (v : value) :
  Kind v ≠ reflect.Struct →
  omitted (Kind v) (Sprint F v) = true
  ↔ v = VInt 0 ∨ v = VFloat32 0 ∨ Sprint F v = "".
Proof.
  intros Hk.
  destruct v as [|b|n|n|bits|bits|s|q|l|fs]; simpl in *; try done;
    rewrite ?omitted_Int, ?omitted_Float32, ?omitted_other by done;
    rewrite bool_decide_eq_true;
    try (split; [by right; right | by intros [?|[?|?]]]).
  - split; [by intros ->; left |].
    intros [[= ->]|[?|Hn]]; [done | done | by apply Itoa_nonempty in Hn].
  - split; [by intros ->; right; left |].
    intros [?|[[= ->]|Hn]]; [done | done | by apply fmt_float32_nonempty in Hn].
Qed.

(** utils.go, mapStructNested, lines 60-67.  A field of a predeclared type
    that is not a struct, included and exported, whose key no other field of
    the record writes: it has no key in the output exactly when it is an int
    that holds 0, a float32 that holds +0, or a value that prints as the
    empty string (the empty string itself).  In every other case, a zero of
    kind int64 or float64, false and a nil pointer among them, the output
    maps the field's name to what %v prints for the value. *)
Theorem scalar_omission_rule {F : Fmt} {U : Unicode} `{!FmtFloat32 F}
    (fs : list (StructField * value)) (baseName : string) (i : nat)
    (t : StructField) (v : value) :
  fs !! i = Some (t, v) → included t → readable t → Kind v ≠ reflect.Struct →
  Forall field_ok fs →
  Forall (λ tv, misses baseName (fieldName t baseName) tv = true)
         (take i fs ++ drop (S i) fs) →
  ∃ m, mapStructNested (VStruct fs) baseName = Ok m
    ∧ (v = VInt 0 ∨ v = VFloat32 0 ∨ Sprint F v = "" →
       m !! fieldName t baseName = None)
    ∧ (v ≠ VInt 0 → v ≠ VFloat32 0 → Sprint F v ≠ "" →
       m !! fieldName t baseName = Some (Sprint F v)).
Proof.
  intros Hi Hinc Hr Hk Hok Hmiss.
  destruct (mapFields_total baseName fs ∅ Hok) as [m Hm].
  exists m. split; [done |].
  rewrite (lookup_leaf fs baseName i t v m Hi Hinc Hr Hk Hmiss Hm).
  pose proof (omitted_spec v Hk) as Hspec.
  destruct (omitted (Kind v) (Sprint F v)).
  - split; [done |]. intros H1 H2 H3. destruct (proj1 Hspec eq_refl) as [?|[?|?]]; done.
  - split; [|done]. intros Hzero. by apply Hspec in Hzero.
Qed.

(** ** urlencode, once more *)

Lemma filter_all {A : Type} (P : A → Prop) `{∀ x, Decision (P x)} (l : list A) :
  Forall P l → filter P l = l.
Proof.
  induction 1 as [|x l Hx _ IH]; [done |].
  by rewrite filter_cons, decide_True, IH.
Qed.

Lemma filter_none {A : Type} (P : A → Prop) `{∀ x, Decision (P x)} (l : list A) :
  Forall (λ x, ¬ P x) l → filter P l = [].
Proof.
  induction 1 as [|x l Hx _ IH]; [done |].
  by rewrite filter_cons, decide_False, IH.
Qed.

(** The results urlencode may return are fixed by the entries whose value is
    not empty: one result for each order of those. *)
Lemma urlencode_iff (params : gmap string string) (out : string) :
  urlencode params out
  ↔ ∃ kept,
      ranges_over (filter (λ kv, kv.2 ≠ "") params) kept
      ∧ out = "&" +:+ Join ((λ kv, kv.1 +:+ "=" +:+ QueryEscape kv.2) <$> kept) "&"
              +:+ "&".
Proof.
  unfold urlencode, ranges_over, urlencode_in. split.
  - intros (entries & Hentries & ->). rewrite urlencode_arr_filter.
    exists (filter (λ kv, kv.2 ≠ "") entries). split; [|done].
    rewrite Hentries. apply map_to_list_filter_perm.
  - intros (kept & Hkept & ->).
    exists (kept ++ filter (λ kv, ¬ kv.2 ≠ "") (map_to_list params)). split.
    + rewrite Hkept, <- map_to_list_filter_perm. apply filter_app_complement.
    + rewrite urlencode_arr_filter, filter_app.
      rewrite (filter_all (λ kv : string * string, kv.2 ≠ "") kept).
      * rewrite (filter_none (λ kv : string * string, kv.2 ≠ "")); [by rewrite app_nil_r |].
        apply Forall_forall. by intros kv [? _]%list_elem_of_filter.
      * apply Forall_forall. intros kv Hkv. rewrite Hkept in Hkv.
        apply elem_of_map_to_list' in Hkv. by apply map_lookup_filter_Some in Hkv as [_ ?].
Qed.

(** utils.go, urlencode, lines 14-18.  An entry whose value is the empty
    string counts for nothing: urlencode returns on the map with that entry
    exactly what it returns on the map without it. *)
Theorem empty_value_is_no_entry (params : gmap string string) (k out : string) :
  urlencode (<[k := ""]> params) out ↔ urlencode (delete k params) out.
Proof.
  rewrite !urlencode_iff.
  by rewrite (map_filter_insert_False (λ kv : string * string, kv.2 ≠ ""))
    by (by intros []).
Qed.

(** utils.go, mapStructNested and urlencode together.  What the encoder
    returns loses no entry in urlencode: the result is made of one pair for
    every entry of the encoder's map, as many pairs as the map has entries. *)
Theorem encoder_output_survives_urlencode {F : Fmt} {U : Unicode} (s : value) (baseName : string)
    (m : gmap string string) (out : string) :
  mapStructNested s baseName = Ok m → urlencode m out →
  ∃ kept,
    ranges_over m kept ∧ length kept = size m
    ∧ out = "&" +:+ Join ((λ kv, kv.1 +:+ "=" +:+ QueryEscape kv.2) <$> kept) "&"
            +:+ "&".
Proof.
  intros Hm (kept & Hkept & ->)%urlencode_iff.
  rewrite (map_filter_id (λ kv : string * string, kv.2 ≠ "")) in Hkept.
  - exists kept. split_and!; [done | | done].
    unfold ranges_over in Hkept. by rewrite Hkept, length_map_to_list.
  - intros k x Hkx. simpl. by eapply values_nonempty.
Qed.

Lemma encoder_output_survives_urlencode_witness :
  ∃ kept,
    ranges_over new_shipment_params kept ∧ length kept = size new_shipment_params
    ∧ urlencode_in (map_to_list new_shipment_params)
      = "&" +:+ Join ((λ kv, kv.1 +:+ "=" +:+ QueryEscape kv.2) <$> kept) "&" +:+ "&".
Proof.
  apply (encoder_output_survives_urlencode (F := fmt_table) (U := letters_table)
      (ptr_to new_shipment) "").
  - exact new_shipment_encoding.
  - exists (map_to_list new_shipment_params). split; [by unfold ranges_over | done].
Defined.

(** ** Fields that collide, fields that cannot be read *)

(** utils.go, mapStructNested, lines 60-67.  Two scalar fields that are
    emitted under the same name (a json tag equal to another field's name,
    two names that differ by case only): the later field overwrites the
    earlier one, silently; a later field that is omitted leaves the earlier
    value in place. *)
Theorem colliding_fields {F : Fmt} {U : Unicode} (t1 t2 : StructField) (v1 v2 : value)
    (baseName : string) :
  included t1 → readable t1 → Kind v1 ≠ reflect.Struct →
  included t2 → readable t2 → Kind v2 ≠ reflect.Struct →
  fieldName t1 baseName = fieldName t2 baseName →
  mapStructNested (VStruct [(t1, v1); (t2, v2)]) baseName
  = Ok (if omitted (Kind v2) (Sprint F v2)
        then (if omitted (Kind v1) (Sprint F v1) then ∅
              else {[ fieldName t1 baseName := Sprint F v1 ]})
        else {[ fieldName t1 baseName := Sprint F v2 ]}).
Proof.
  intros Hi1 Hr1 Hk1 Hi2 Hr2 Hk2 Hname.
  rewrite mapStructNested_struct, mapFields_cons, mapField_scalar, obind_Ok by done.
  rewrite mapFields_cons, mapField_scalar, obind_Ok by done. simpl.
  rewrite <- Hname.
  destruct (omitted (Kind v2) _), (omitted (Kind v1) _);
    by rewrite ?insert_insert_eq, ?insert_empty.
Qed.

Lemma colliding_fields_witness :
  mapStructNested (F := fmt_table) (U := letters_table)
    (VStruct [(field "Name" [json "x"], VString "a"); (field "X" [], VString "b")]) ""
  = Ok {[ "x" := "b" ]}.
Proof.
  apply (colliding_fields (F := fmt_table) (U := letters_table)
      (field "Name" [json "x"]) (field "X" [])
           (VString "a") (VString "b") "");
    [ is_included | by_evaluation | by inversion 1
    | is_included | by_evaluation | by inversion 1 | by_evaluation ].
Defined.

(** utils.go, mapStructNested, lines 56 and 61.  A record with an unexported
    field that is not tagged dontMap:"true" cannot be encoded: v.Interface()
    panics on that field, whatever it holds and whatever follows it. *)
Theorem unexported_field_panics {F : Fmt} {U : Unicode} (pre post : list (StructField * value))
    (t : StructField) (v : value) (baseName : string) :
  Forall field_ok pre → included t → PkgPath t ≠ "" →
  mapStructNested (VStruct (pre ++ (t, v) :: post)) baseName
  = Panic InterfaceOfUnexported.
Proof.
  intros Hpre Hinc Hpkg.
  rewrite mapStructNested_struct, mapFields_app.
  destruct (mapFields_total baseName pre ∅ Hpre) as [r ->].
  rewrite obind_Ok, mapFields_cons. unfold mapField, Interface.
  rewrite (decide_False _ _ Hinc), (decide_False _ _ Hpkg).
  by case_decide.
Qed.

Lemma unexported_field_panics_witness :
  mapStructNested (F := fmt_table) (U := letters_table)
    (VStruct ([(field "Carrier" [], VString "ups")]
              ++ (field "p" [], VPtr None) :: [(field "Service" [], VString "ground")])) ""
  = Panic InterfaceOfUnexported.
Proof.
  apply (unexported_field_panics (F := fmt_table) (U := letters_table));
    [ each_field field_is_ok | is_included | discriminate ].
Defined.

(** utils.go, mapStructNested, on the types of the shipment file.  The
    encoder returns, under every prefix, on every CustomContent, Custom and
    Package, and on every pointer to a Shipment whose two addresses it can
    encode: the one unexported field, p, is tagged dontMap:"true" and is
    passed over before it is read. *)
Theorem shipment_records_encode {F : Fmt} {U : Unicode} :
  (∀ c : CustomContent.t, encodes (to_value c))
  ∧ (∀ c : Custom.t, encodes (to_value c))
  ∧ (∀ p : Package.t, encodes (to_value p))
  ∧ (∀ s : Shipment.t,
       encodes (to_value (Shipment.To s)) → encodes (to_value (Shipment.From s)) →
       encodes (ptr_to s)).
Proof.
  split_and!;
    auto using CustomContent_encodes, Custom_encodes, Package_encodes, Shipment_encodes.
Qed.

Lemma shipment_records_encode_witness :
  encodes (F := fmt_table) (U := letters_table) (ptr_to new_shipment).
Proof.
  destruct (shipment_records_encode (F := fmt_table) (U := letters_table)) as (_ & _ & _ & Hshipment).
  apply Hshipment; apply encodes_struct; each_field field_is_ok.
Defined.

(** ** Where a key comes from *)

Section origin.
Context {F : Fmt} {U : Unicode}.

Implicit Types (fs : list (StructField * value)) (r m : gmap string string).

Lemma mapField_origin baseName k r tv r' :
  mapField mapStructNested baseName r tv = Ok r' → is_Some (r' !! k) →
  is_Some (r !! k) ∨ writes baseName k tv.
Proof.
  destruct tv as [t v]. unfold mapField, writes. simpl.
  case_decide as Hd; [intros [= <-]; by left |].
  case_decide as Hk.
  - destruct (Interface t v); simpl; [|done].
    destruct (mapStructNested v _) as [mv|] eqn:Hmv; simpl; [|done].
    intros [= <-] [Hin|Hin]%lookup_union_is_Some; [|by left].
    right. split; [done |]. right. eauto.
  - destruct (Interface t v); simpl; [|done].
    destruct (omitted _ _); intros [= <-]; [by left |].
    destruct (decide (fieldName t baseName = k)) as [<-|Hne].
    + right. split; [done |]. by left.
    + rewrite lookup_insert_ne by done. by left.
Qed.

Lemma mapFields_origin baseName k fs r m :
  mapFields mapStructNested baseName fs r = Ok m → is_Some (m !! k) →
  is_Some (r !! k) ∨ Exists (writes baseName k) fs.
Proof.
  revert r. induction fs as [|tv fs IH]; intros r; simpl.
  { intros [= <-]. by left. }
  destruct (mapField mapStructNested baseName r tv) as [r'|] eqn:Hr'; simpl; [|done].
  intros Hm Hk. destruct (IH _ Hm Hk) as [Hk'|Hfs].
  - destruct (mapField_origin _ _ _ _ _ Hr' Hk') as [?|?]; [by left |].
    right. by apply Exists_cons_hd.
  - right. by apply Exists_cons_tl.
Qed.

Lemma key_origin baseName k fs m :
  mapStructNested (VStruct fs) baseName = Ok m → is_Some (m !! k) →
  Exists (writes baseName k) fs.
Proof.
  rewrite mapStructNested_struct. intros Hm Hk.
  destruct (mapFields_origin _ _ _ _ _ Hm Hk) as [Hk'|]; [|done].
  rewrite lookup_empty in Hk'. by destruct Hk'.
Qed.
End origin.

(** ** The parameters of a Shipment *)

Lemma key_in_list (k : string) (l : list string) : bool_decide (k ∈ l) = true → k ∈ l.
Proof. apply bool_decide_eq_true. Qed.

(** Follows a key of the output back through the fields that may have
    written it, over records whose descriptors are known. *)
Ltac trace_key Hm Hk :=
  let Hex := fresh "Hex" in
  pose proof (key_origin _ _ _ _ Hm Hk) as Hex;
  repeat (apply Exists_cons in Hex as [Hex|Hex]; [trace_field Hex |]);
  by apply Exists_nil in Hex
with trace_field Hex :=
  let Hinc := fresh "Hinc" in
  let Hkind := fresh "Hkind" in
  let mv := fresh "mv" in
  let Hmv := fresh "Hmv" in
  let Hin := fresh "Hin" in
  destruct Hex as [Hinc [[Hkind ->]|(Hkind & mv & Hmv & Hin)]];
  first
    [ by (exfalso; apply Hinc; vm_compute; reflexivity)
    | by (exfalso; apply Hkind; reflexivity)
    | discriminate Hkind
    | by (left; apply key_in_list; vm_compute)
    | by (right; left; refine (keys_prefixed _ "to" _ _ _ Hmv Hin))
    | by (right; right; refine (keys_prefixed _ "from" _ _ _ Hmv Hin))
    | unfold to_value, Package_value, Custom_value, CustomContent_value in Hmv;
      trace_key Hmv Hin ].

(** utils.go, mapStructNested, on the Shipment of the shipment file.  The
    parameters a Shipment can ever send are the nineteen keys of
    [shipment_keys] and the keys of its two addresses, which start with to[
    and from[; nothing else is in the output, whatever the shipment holds. *)
Theorem Shipment_key_set {F : Fmt} {U : Unicode} (s : Shipment.t) (m : gmap string string)
    (k : string) :
  mapStruct (ptr_to s) = Ok m → is_Some (m !! k) →
  k ∈ shipment_keys ∨ starts_with "to[" k = true ∨ starts_with "from[" k = true.
Proof.
  intros Hm Hk.
  change (mapStructNested (to_value s) "" = Ok m) in Hm.
  unfold to_value, Shipment_value in Hm.
  trace_key Hm Hk.
Qed.

Lemma Shipment_key_set_witness :
  "package[width]" ∈ shipment_keys
  ∨ starts_with "to[" "package[width]" = true
  ∨ starts_with "from[" "package[width]" = true.
Proof.
  apply (Shipment_key_set (F := fmt_table) (U := letters_table) new_shipment new_shipment_params).
  - exact new_shipment_encoding.
  - by exists "2.5".
Defined.

(** ** Blank records *)

Section blank_facts.
Context {F : Fmt} {U : Unicode} `{!FmtFloat32 F}.

Lemma blank_scalar_omitted v :
  blank v = true → Kind v ≠ reflect.Struct → omitted (Kind v) (Sprint F v) = true.
Proof.
  destruct v as [|b|n|n|bits|bits|s|q|l|fs]; simpl; try done;
    intros ->%bool_decide_eq_true _; by rewrite ?omitted_Int, ?omitted_Float32.
Qed.

Lemma blank_fields baseName fs r :
  Forall (λ tv, ∀ b, blank tv.2 = true → Kind tv.2 = reflect.Struct →
                     mapStructNested tv.2 b = Ok ∅) fs →
  forallb (λ tv, bool_decide (Tag_Get (Tag tv.1) "dontMap" = "true")
                 || bool_decide (PkgPath tv.1 = "") && blank tv.2) fs = true →
  mapFields mapStructNested baseName fs r = Ok r.
Proof.
  induction 1 as [|[t v] fs Htv _ IH]; [done |].
  simpl forallb. intros [Hhead Htail]%andb_prop.
  rewrite mapFields_cons.
  apply orb_prop in Hhead as [Hd%bool_decide_eq_true|Hhead].
  { rewrite mapField_dontMap, obind_Ok by done. by apply IH. }
  apply andb_prop in Hhead as [He%bool_decide_eq_true Hv]. simpl in He, Hv.
  destruct (decide (Tag_Get (Tag t) "dontMap" = "true")) as [Hd|Hd].
  { rewrite mapField_dontMap, obind_Ok by done. by apply IH. }
  destruct (decide (Kind v = reflect.Struct)) as [Hk|Hk].
  - rewrite mapField_struct, (Htv _ Hv Hk) by done. simpl.
    rewrite (left_id_L ∅ (∪)). by apply IH.
  - rewrite mapField_scalar, blank_scalar_omitted, obind_Ok by done. by apply IH.
Qed.
End blank_facts.

Lemma blank_encodes {F : Fmt} {U : Unicode} `{!FmtFloat32 F} (v : value) (baseName : string) :
  blank v = true → Kind v = reflect.Struct → mapStructNested v baseName = Ok ∅.
Proof.
  revert baseName.
  induction v as [| | | | | | | | | |fs IH] using value_ind_deep;
    intros prefix; try done.
  intros Hblank _. rewrite mapStructNested_struct.
  by apply blank_fields.
Qed.

Lemma blank_fields_skipped {F : Fmt} {U : Unicode} `{!FmtFloat32 F} (baseName : string)
    (fs : list (StructField * value)) (r : gmap string string) :
  forallb (λ tv, bool_decide (Tag_Get (Tag tv.1) "dontMap" = "true")
                 || bool_decide (PkgPath tv.1 = "") && blank tv.2) fs = true →
  mapFields mapStructNested baseName fs r = Ok r.
Proof.
  apply blank_fields. apply Forall_true. intros tv b. apply blank_encodes.
Qed.

(** utils.go, mapStructNested, lines 37-69.  A blank record, one whose
    included fields hold nothing but empty strings, zero ints, zero float32s
    and blank records, encodes to the empty map, under every prefix. *)
Theorem blank_record_encodes_to_nothing {F : Fmt} {U : Unicode} `{!FmtFloat32 F}
    (fields : list (StructField * value)) (baseName : string) :
  blank (VStruct fields) = true →
  mapStructNested (VStruct fields) baseName = Ok ∅.
Proof. intros Hblank. by apply blank_encodes. Qed.

Lemma blank_record_encodes_to_nothing_witness :
  mapStructNested (F := fmt_table) (U := letters_table)
    (VStruct [ (field "Id" [dontMap], VInt 7);
               (field "Name" [], VString "");
               (field "Width" [], VFloat32 0);
               (field "Inner" [], VStruct [(field "Count" [], VInt 0)]) ]) "package"
  = Ok ∅.
Proof.
  apply (blank_record_encodes_to_nothing (F := fmt_table) (U := letters_table)). by_evaluation.
Defined.

(** ** Strings, once more *)

Lemma length_append (a b : string) :
  String.length (a +:+ b) = (String.length a + String.length b)%nat.
Proof. induction a as [|x a IH]; [done |]. rewrite append_cons. simpl. by rewrite IH. Qed.

Lemma append_cancel_r (a b c : string) : a +:+ c = b +:+ c → a = b.
Proof.
  revert b. induction a as [|x a IH]; intros [|y b] H.
  - done.
  - apply (f_equal String.length) in H.
    rewrite append_nil_l, append_cons in H. simpl in H.
    rewrite length_append in H. lia.
  - apply (f_equal String.length) in H.
    rewrite append_nil_l, append_cons in H. simpl in H.
    rewrite length_append in H. lia.
  - rewrite !append_cons in H. injection H as -> H. f_equal. by apply IH.
Qed.

Lemma makeUrl_inj (p : Postmaster) (version e1 e2 : string) :
  makeUrl p version e1 = makeUrl p version e2 → e1 = e2.
Proof.
  unfold makeUrl. intros H.
  by repeat apply (inj (String.append _)) in H.
Qed.

(** ** The shipment calls, once more *)

Section more_calls.
Context {F : Fmt} {U : Unicode} {TrackingResponse : Type} (zero : TrackingResponse).

Abbreviation transport' := (transport (TrackingResponse := TrackingResponse)).

(** the shipment file, Create, lines 80-87.  Create on a shipment without
    identifier attempts exactly one request, a POST to v1/shipments that
    carries what mapStruct makes of the receiver, and returns the receiver as
    the transport left it together with the transport's error, unchanged.
    For a shipment whose addresses the encoder can encode that request is
    always made; when the encoder panics, Create panics before any
    request. *)
Theorem Create_sends_the_encoding (h : transport') (s : Shipment.t) :
  Shipment.Id s = -1 →
  (encodes (to_value (Shipment.To s)) → encodes (to_value (Shipment.From s)) →
   ∃ params,
     mapStruct (ptr_to s) = Ok params
     ∧ let rq := mkRequest POST (Shipment.p s) "v1" "shipments" (Some params) in
       let reply : Shipment.t * error := h IntoShipment rq s in
       run h (Create s) = ([rq], Ok (Some reply.1, reply.2)))
  ∧ (∀ p, mapStruct (ptr_to s) = Panic p → run h (Create s) = ([], Panic p)).
Proof.
  intros Hid. unfold Create. rewrite decide_False by (by intros []). split.
  - intros Hto Hfrom. destruct (Shipment_encodes s Hto Hfrom "") as [params Hparams].
    exists params. split; [done |].
    change (mapStruct (ptr_to s)) with (mapStructNested (ptr_to s) "").
    rewrite Hparams. cbn [run]. by destruct (h IntoShipment _ s).
  - by intros p ->.
Qed.

(** the shipment file, Get, Void and Track, lines 91-127, with makeUrl.
    Each of the three calls, on a shipment with an identifier, attempts
    exactly one request, whose endpoint is shipments/ID, shipments/ID/void
    and shipments/ID/track, the identifier in decimal; and the same call on
    two shipments with different identifiers never addresses the same URL. *)
Theorem distinct_shipments_distinct_urls (h : transport') (c : Postmaster)
    (s1 s2 : Shipment.t) :
  Shipment.Id s1 ≠ -1 → Shipment.Id s2 ≠ -1 → Shipment.Id s1 ≠ Shipment.Id s2 →
  ∃ get1 get2 void1 void2 track1 track2,
    endpoints h (Get s1) = [get1] ∧ endpoints h (Get s2) = [get2]
    ∧ endpoints h (Void s1) = [void1] ∧ endpoints h (Void s2) = [void2]
    ∧ endpoints h (Track zero s1) = [track1] ∧ endpoints h (Track zero s2) = [track2]
    ∧ get1 = "shipments/" +:+ Itoa (Shipment.Id s1)
    ∧ void1 = "shipments/" +:+ Itoa (Shipment.Id s1) +:+ "/void"
    ∧ track1 = "shipments/" +:+ Itoa (Shipment.Id s1) +:+ "/track"
    ∧ makeUrl c "v1" get1 ≠ makeUrl c "v1" get2
    ∧ makeUrl c "v1" void1 ≠ makeUrl c "v1" void2
    ∧ makeUrl c "v1" track1 ≠ makeUrl c "v1" track2.
Proof.
  intros H1 H2 Hne.
  eexists _, _, _, _, _, _.
  unfold endpoints, Get, Void, Track. rewrite !decide_False by done. cbn [run].
  repeat match goal with |- context [h ?o ?rq ?cur] => destruct (h o rq cur) end.
  cbn [run fst fmap list_fmap rq_endpoint].
  split_and!; try reflexivity.
  - intros Heq%makeUrl_inj. apply (inj (String.append _)) in Heq.
    by apply (inj (pretty : Z → string)) in Heq.
  - intros Heq%makeUrl_inj. apply (inj (String.append _)) in Heq.
    apply append_cancel_r in Heq. by apply (inj (pretty : Z → string)) in Heq.
  - intros Heq%makeUrl_inj. apply (inj (String.append _)) in Heq.
    apply append_cancel_r in Heq. by apply (inj (pretty : Z → string)) in Heq.
Qed.

(** the shipment file, Void, lines 102-113.  Void writes to no field of
    the receiver but Status: the client, the Id, both addresses, the package,
    Carrier, Service, Tracking, PackageCount, CreatedAt, Cost and Prepaid
    are afterwards what they were, whatever the transport answers.  Status
    is "Voided" afterwards when the boolean result is true, and what it was
    when the result is false. *)
Theorem Void_touches_only_Status (h : transport') (s : Shipment.t) :
  ∃ (s' : Shipment.t) (ok : bool) (err : error),
    (run h (Void s)).2 = Ok (s', (ok, err))
    ∧ Shipment.p s' = Shipment.p s
    ∧ Shipment.Id s' = Shipment.Id s
    ∧ Shipment.To s' = Shipment.To s
    ∧ Shipment.From s' = Shipment.From s
    ∧ Shipment.Package s' = Shipment.Package s
    ∧ Shipment.Carrier s' = Shipment.Carrier s
    ∧ Shipment.Service s' = Shipment.Service s
    ∧ Shipment.Tracking s' = Shipment.Tracking s
    ∧ Shipment.PackageCount s' = Shipment.PackageCount s
    ∧ Shipment.CreatedAt s' = Shipment.CreatedAt s
    ∧ Shipment.Cost s' = Shipment.Cost s
    ∧ Shipment.Prepaid s' = Shipment.Prepaid s
    ∧ Shipment.Status s' = (if ok then "Voided" else Shipment.Status s).
Proof.
  unfold Void. case_decide.
  - by exists s, false, (Some "You must provide a shipment ID.").
  - cbn [run]. destruct (h IntoMessage _ ∅) as [res err]. cbn [run snd].
    eexists _, (bool_decide (default "" (res !! "message") = "OK")), err.
    split; [reflexivity |].
    by case_decide; [rewrite bool_decide_eq_true_2 | rewrite bool_decide_eq_false_2].
Qed.

(** the shipment file, Void, lines 107-112.  When the decoded response has
    no entry "message" (also when the transport left the map nil), Void
    reports false and leaves the receiver as it was; the error is the
    transport's, nil or not. *)
Theorem Void_without_message (h : transport') (s : Shipment.t) :
  Shipment.Id s ≠ -1 →
  let rq := mkRequest DELETE (Shipment.p s) "v1"
              ("shipments/" +:+ Itoa (Shipment.Id s) +:+ "/void") None in
  let reply : gmap string string * error := h IntoMessage rq ∅ in
  reply.1 !! "message" = None →
  run h (Void s) = ([rq], Ok (s, (false, reply.2))).
Proof.
  intros Hid rq reply Hnone. unfold Void. rewrite decide_False by done.
  cbn [run]. fold rq. change (h IntoMessage rq ∅) with reply.
  destruct reply as [res err]. simpl in Hnone. simpl.
  by rewrite Hnone.
Qed.

(** the shipment file, FindShipments, lines 152-165.  With a query that
    is not empty FindShipments attempts exactly one request, a GET to
    v1/shipments/search, whose parameters are q, always; limit, in decimal,
    exactly when limit is greater than zero; cursor exactly when it is not
    empty; and nothing else. *)
Theorem FindShipments_parameters (h : transport') (p : option Postmaster)
    (q : string) (limit : Z) (cursor : string) :
  q ≠ "" →
  ∃ params : gmap string string,
    (run h (FindShipments p q limit cursor)).1
    = [mkRequest GET p "v1" "shipments/search" (Some params)]
    ∧ params !! "q" = Some q
    ∧ params !! "limit" = (if decide (limit > 0) then Some (Itoa limit) else None)
    ∧ params !! "cursor" = (if decide (cursor ≠ "") then Some cursor else None)
    ∧ dom params ⊆ {[ "q"; "limit"; "cursor" ]}.
Proof.
  intros Hq. unfold FindShipments. rewrite decide_False by done.
  eexists. split.
  { cbn [run]. destruct (run h _) as [log r] eqn:Hrun. simpl.
    unfold attach in Hrun. destruct (_.1); by injection Hrun as <- _. }
  split_and!.
  - destruct (decide (limit > 0)), (decide (cursor ≠ ""));
      repeat (rewrite lookup_insert_ne by done);
      by rewrite ?lookup_insert_eq.
  - destruct (decide (limit > 0)), (decide (cursor ≠ ""));
      repeat (rewrite lookup_insert_ne by done);
      by rewrite ?lookup_insert_eq, ?lookup_empty.
  - destruct (decide (limit > 0)), (decide (cursor ≠ ""));
      repeat (rewrite lookup_insert_ne by done);
      by rewrite ?lookup_insert_eq, ?lookup_empty.
  - destruct (decide (limit > 0)), (decide (cursor ≠ ""));
      rewrite ?dom_insert_L, dom_empty_L; intros k;
      rewrite ?elem_of_union, ?elem_of_singleton, elem_of_empty; tauto.
Qed.

(** the shipment file, ListShipments, lines 141-147.  ListShipments never
    returns a nil list.  When the transport leaves a list in place, the call
    returns that list with the client set on every shipment of it and
    nothing else changed (same shipments in the same order, same cursors),
    together with the transport's error, nil or not; when the decoder reset
    the list to nil, the loop over its results panics. *)
Theorem list_results_carry_the_client (h : transport') (p : option Postmaster)
    (limit : Z) (cursor status : string) :
  let rq := mkRequest GET p "v1" "shipments"
              (Some (ListShipments_params limit cursor status)) in
  let reply : option ShipmentList.t * error :=
    h IntoList rq (Some (ShipmentList.mk [] "" "")) in
  match reply.1 with
  | Some res =>
      ∃ l, run h (ListShipments p limit cursor status) = ([rq], Ok (Some l, reply.2))
           ∧ ShipmentList.Results l = Shipment.set_p p <$> ShipmentList.Results res
           ∧ Forall (λ s, Shipment.p s = p) (ShipmentList.Results l)
           ∧ ShipmentList.Cursor l = ShipmentList.Cursor res
           ∧ ShipmentList.PreviousCursor l = ShipmentList.PreviousCursor res
  | None => run h (ListShipments p limit cursor status) = ([rq], Panic NilDereference)
  end.
Proof.
  intros rq reply. unfold ListShipments. cbn [run]. fold rq.
  change (h IntoList rq (Some (ShipmentList.mk [] "" ""))) with reply.
  unfold attach. destruct reply as [[res|] err]; cbn [fst snd run]; [|done].
  eexists. split_and!; try reflexivity. simpl.
  apply Forall_fmap, Forall_true. by intros [].
Qed.
End more_calls.

(** the shipment file, Shipment(), lines 71-76, with Create and Get.  A
    shipment fresh from Shipment() sends nothing of its own: mapStruct makes
    of it exactly what the encoder makes of its two zero addresses (the empty
    map when the zero address is blank).  It passes the gate of Create, which
    posts those parameters for the client it was made for, and it is refused
    by Get without a request. *)
Theorem fresh_shipment {F : Fmt} {U : Unicode} `{!FmtFloat32 F} {TrackingResponse : Type}
    (h : transport (TrackingResponse := TrackingResponse))
    (zero : Address) (p : option Postmaster) (mto mfrom : gmap string string) :
  mapStructNested (to_value zero) "to" = Ok mto →
  mapStructNested (to_value zero) "from" = Ok mfrom →
  let s := Postmaster_Shipment zero p in
  let rq := mkRequest POST p "v1" "shipments" (Some (mfrom ∪ mto)) in
  let reply : Shipment.t * error := h IntoShipment rq s in
  mapStruct (ptr_to s) = Ok (mfrom ∪ mto)
  ∧ (blank (to_value zero) = true → mfrom ∪ mto = ∅)
  ∧ run h (Create s) = ([rq], Ok (Some reply.1, reply.2))
  ∧ run h (Get s) = ([], Ok (None, Some "You must provide a shipment ID.")).
Proof.
  intros Hto Hfrom s rq reply.
  assert (mapStruct (ptr_to s) = Ok (mfrom ∪ mto)) as Henc.
  { change (mapFields mapStructNested ""
              ((field "p" [dontMap], VPtr (to_value <$> p))
               :: (field "Id" [dontMap], VInt (-1))
               :: (field "To" [], to_value zero)
               :: (field "From" [], to_value zero)
               :: drop 4 (match to_value s with VStruct fs => fs | _ => [] end)) ∅
            = Ok (mfrom ∪ mto)).
    rewrite mapFields_cons, mapField_dontMap, obind_Ok by by_evaluation.
    rewrite mapFields_cons, mapField_dontMap, obind_Ok by by_evaluation.
    rewrite mapFields_cons, mapField_struct by first [is_included | by_evaluation].
    change (fieldName (field "To" []) "") with "to". rewrite Hto.
    unfold omap_outcome. rewrite obind_Ok.
    rewrite mapFields_cons, mapField_struct by first [is_included | by_evaluation].
    change (fieldName (field "From" []) "") with "from". rewrite Hfrom.
    unfold omap_outcome. rewrite obind_Ok.
    rewrite blank_fields_skipped by by_evaluation.
    by rewrite (right_id_L ∅ (∪)). }
  split_and!.
  - done.
  - intros Hblank.
    rewrite (blank_encodes (to_value zero) "to" Hblank eq_refl) in Hto.
    rewrite (blank_encodes (to_value zero) "from" Hblank eq_refl) in Hfrom.
    injection Hto as <-. injection Hfrom as <-. by rewrite (left_id_L ∅ (∪)).
  - unfold Create. rewrite decide_False by (by intros []).
    rewrite Henc. cbn [run]. change (Shipment.p s) with p. subst reply rq.
    by destruct (h IntoShipment _ s).
  - unfold Get. by rewrite decide_True.
Qed.

(** * The further properties at concrete inputs *)

Lemma Create_sends_the_encoding_witness :
  ∃ params,
    mapStruct (F := fmt_table) (U := letters_table) (ptr_to new_shipment) = Ok params
    ∧ run accepting (Create (F := fmt_table) (U := letters_table) new_shipment)
      = ([mkRequest POST None "v1" "shipments" (Some params)],
         Ok (Some new_shipment, None)).
Proof.
  destruct (Create_sends_the_encoding (F := fmt_table) (U := letters_table)
      accepting new_shipment eq_refl)
    as [Hsent _].
  destruct Hsent as (params & Hparams & Hrun);
    [apply encodes_struct; each_field field_is_ok
    |apply encodes_struct; each_field field_is_ok |].
  exists params. split; [done | exact Hrun].
Defined.

Lemma distinct_shipments_distinct_urls_witness :
  ∃ get1 get2 void1 void2 track1 track2,
    endpoints accepting (Get stored_shipment) = [get1]
    ∧ endpoints accepting (Get another_stored_shipment) = [get2]
    ∧ endpoints accepting (Void stored_shipment) = [void1]
    ∧ endpoints accepting (Void another_stored_shipment) = [void2]
    ∧ endpoints accepting (Track tt stored_shipment) = [track1]
    ∧ endpoints accepting (Track tt another_stored_shipment) = [track2]
    ∧ get1 = "shipments/" +:+ Itoa 42
    ∧ void1 = "shipments/" +:+ Itoa 42 +:+ "/void"
    ∧ track1 = "shipments/" +:+ Itoa 42 +:+ "/track"
    ∧ makeUrl (Build_Postmaster "") "v1" get1 ≠ makeUrl (Build_Postmaster "") "v1" get2
    ∧ makeUrl (Build_Postmaster "") "v1" void1 ≠ makeUrl (Build_Postmaster "") "v1" void2
    ∧ makeUrl (Build_Postmaster "") "v1" track1
      ≠ makeUrl (Build_Postmaster "") "v1" track2.
Proof.
  apply (distinct_shipments_distinct_urls tt accepting
           (Build_Postmaster "") stored_shipment another_stored_shipment);
    simpl; lia.
Defined.

Lemma Void_without_message_witness :
  run refusing (Void stored_shipment)
  = ([mkRequest DELETE None "v1" "shipments/42/void" None],
     Ok (stored_shipment, (false, Some "connection refused"))).
Proof.
  apply (Void_without_message refusing stored_shipment); [simpl; lia | reflexivity].
Defined.

Lemma FindShipments_parameters_witness :
  ∃ params : gmap string string,
    (run accepting (FindShipments None "oslo" 0 "c2")).1
    = [mkRequest GET None "v1" "shipments/search" (Some params)]
    ∧ params !! "q" = Some "oslo"
    ∧ params !! "limit" = None
    ∧ params !! "cursor" = Some "c2"
    ∧ dom params ⊆ {[ "q"; "limit"; "cursor" ]}.
Proof.
  apply (FindShipments_parameters accepting None "oslo" 0 "c2"). discriminate.
Defined.

Lemma fresh_shipment_witness :
  mapStruct (F := fmt_table) (U := letters_table)
      (ptr_to (Postmaster_Shipment [] None)) = Ok (∅ ∪ ∅)
  ∧ run accepting (Get (Postmaster_Shipment [] None))
    = ([], Ok (None, Some "You must provide a shipment ID.")).
Proof.
  destruct (fresh_shipment (F := fmt_table) (U := letters_table)
      accepting [] None ∅ ∅ eq_refl eq_refl)
    as (Henc & _ & _ & Hget).
  split; [exact Henc | exact Hget].
Defined.

Lemma scalar_omission_rule_witness :
  (∃ m, mapStruct (F := fmt_table) (U := letters_table)
          (VStruct [(field "PackageCount" [json "package_count"], VInt 0);
                    (field "Ratio" [], VFloat64 0);
                    (field "Carrier" [], VString "")]) = Ok m
        ∧ m !! "package_count" = None)
  ∧ (∃ m, mapStruct (F := fmt_table) (U := letters_table)
          (VStruct [(field "PackageCount" [json "package_count"], VInt 0);
                    (field "Ratio" [], VFloat64 0);
                    (field "Carrier" [], VString "")]) = Ok m
        ∧ m !! "ratio" = Some "0").
Proof.
  split.
  - destruct (scalar_omission_rule (F := fmt_table) (U := letters_table)
                [(field "PackageCount" [json "package_count"], VInt 0);
                 (field "Ratio" [], VFloat64 0);
                 (field "Carrier" [], VString "")] "" 0%nat
                (field "PackageCount" [json "package_count"]) (VInt 0))
      as (m & Hm & Hnone & _);
      [reflexivity | is_included | by_evaluation | by inversion 1
      | each_field field_is_ok | each_field by_evaluation |].
    exists m. split; [exact Hm | apply Hnone; by left].
  - destruct (scalar_omission_rule (F := fmt_table) (U := letters_table)
                [(field "PackageCount" [json "package_count"], VInt 0);
                 (field "Ratio" [], VFloat64 0);
                 (field "Carrier" [], VString "")] "" 1%nat
                (field "Ratio" []) (VFloat64 0))
      as (m & Hm & _ & Hsome);
      [reflexivity | is_included | by_evaluation | by inversion 1
      | each_field field_is_ok | each_field by_evaluation |].
    exists m. split; [exact Hm | by apply Hsome].
Defined.
